(** * Kefiat maintenance requests: the status pipeline and its timestamps

    A shallow embedding of the request routes of the backend
    (the Express router with [POST /], [PATCH /:id/close],
    [PATCH /:id/status] and [PATCH /:id/priority]), in its later revision
    (the one with the two-hour visit windows, which back-fills the stage
    timestamps), and the properties the specification states about them.

    Modelling conventions.
    - An instant ([Date]) is an integer, milliseconds since the epoch.
    - A nullable column is an [option]; [!x] on a date is [x = None].
    - The table is a finite map from ids to rows plus the SERIAL counter.
    - A handler is a function from the authenticated user, the route
      parameter, the body, the clock reading [now] and the table to the
      response and the new table. A handler runs as one atomic step.
    - [status] and [priority] arrive as JSON strings and are checked with
      [includes] against the lists of literals; the embedding decodes them
      at that check into the enumerations that the columns hold.
    - The ORM calls are total, except that [update] throws on an id that
      has no row. What the database itself may refuse is outside the
      development: the route parameter is taken after [Number(id)], as
      an integer that the id column admits (for any other value the ORM
      throws and the routes answer 500), and a creation is modelled when
      the insert goes through (a refused insert is answered 500 and
      stores nothing). The column [updatedAt], which the ORM rewrites at
      every update, is not part of the row: the statements name the
      columns they speak of.
    - The properties about sequences of calls are stated over the tables
      reachable from the empty table, with clock readings that do not
      decrease from one call to the next ([ticks], [reachable]). *)

From stdpp Require Import gmap strings list fin_maps sorting.

Local Open Scope string_scope.
Local Open Scope Z_scope.

(** ** Enumerations *)

Inductive RequestStatus : Set :=
  | in_queue
  | viewed
  | maintenance_requested
  | implementing_actions
  | completed.

Inductive PriorityValue : Set :=
  | low
  | normal
  | high
  | emergency.

#[global] Instance RequestStatus_eq_dec : EqDecision RequestStatus.
Proof. solve_decision. Defined.

#[global] Instance PriorityValue_eq_dec : EqDecision PriorityValue.
Proof. solve_decision. Defined.

(** The literals of the serialization contract. *)
Definition status_str (s : RequestStatus) : string :=
  match s with
  | in_queue => "in_queue"
  | viewed => "viewed"
  | maintenance_requested => "maintenance_requested"
  | implementing_actions => "implementing_actions"
  | completed => "completed"
  end.

Definition priority_str (p : PriorityValue) : string :=
  match p with
  | low => "low"
  | normal => "normal"
  | high => "high"
  | emergency => "emergency"
  end.

Definition statusPipeline : list RequestStatus :=
  [in_queue; viewed; maintenance_requested; implementing_actions; completed].

Definition allowedStatusValues : list RequestStatus := statusPipeline.

Definition allowedPriorities : list PriorityValue :=
  [low; normal; high; emergency].

Definition allowedWindowOptions : list string :=
  ["08:00-10:00"; "09:00-11:00"; "10:00-12:00"; "11:00-13:00";
   "12:00-14:00"; "13:00-15:00"; "14:00-16:00"; "15:00-17:00"].

(** ** JavaScript helpers *)

(** [Array.prototype.indexOf]: the first position of [x], or [-1]. *)
Fixpoint indexOf_from {A} `{EqDecision A} (l : list A) (x : A) (i : Z) : Z :=
  match l with
  | [] => -1
  | y :: l' => if decide (x = y) then i else indexOf_from l' x (i + 1)
  end.

Definition indexOf {A} `{EqDecision A} (l : list A) (x : A) : Z :=
  indexOf_from l x 0.

(** [Array.prototype.includes]. *)
Definition includes {A} `{EqDecision A} (l : list A) (x : A) : bool :=
  bool_decide (x ∈ l).

(** [status && allowedStatusValues.includes(status)], decoded: the member
    of the list whose literal is the string received. *)
Definition decode_status (s : string) : option RequestStatus :=
  find (fun st => String.eqb s (status_str st)) allowedStatusValues.

Definition decode_priority (s : string) : option PriorityValue :=
  find (fun p => String.eqb s (priority_str p)) allowedPriorities.

(** The truthy value of an optional string: [undefined] and the empty
    string are falsy. *)
Definition truthy (o : option string) : option string :=
  match o with
  | Some s => if String.eqb s "" then None else Some s
  | None => None
  end.

(** [a ?? b] *)
Definition nullish {A} (a : option A) (b : A) : A :=
  match a with
  | Some x => x
  | None => b
  end.

Infix "??" := nullish (at level 45, right associativity).

(** [!x] on a nullable date. *)
Definition unset {A} (a : option A) : bool :=
  match a with
  | Some _ => false
  | None => true
  end.

(** ** Rows, the table and the ORM calls *)

Record Request : Set := mkRequest {
  reqId : Z;
  unit_ : string;
  category : string;
  description : string;
  phone : string;
  preferredWindow1 : option string;
  preferredWindow2 : option string;
  accessInstructions : option string;
  tenantId : Z;
  status : RequestStatus;
  priority : PriorityValue;
  lastUpdatedByRole : option string;
  createdAt : option Z;
  inQueueAt : option Z;
  viewedAt : option Z;
  maintenanceRequestedAt : option Z;
  implementingActionsAt : option Z;
  completedAt : option Z
}.

(** The [data] object of an [update]: a field that is absent is not
    written. *)
Record UpdateData : Set := mkData {
  d_status : option RequestStatus;
  d_priority : option PriorityValue;
  d_lastUpdatedByRole : option string;
  d_inQueueAt : option Z;
  d_viewedAt : option Z;
  d_maintenanceRequestedAt : option Z;
  d_implementingActionsAt : option Z;
  d_completedAt : option Z
}.

Definition set_inQueueAt (d : UpdateData) (t : Z) : UpdateData :=
  mkData (d_status d) (d_priority d) (d_lastUpdatedByRole d)
         (Some t) (d_viewedAt d) (d_maintenanceRequestedAt d)
         (d_implementingActionsAt d) (d_completedAt d).

Definition set_viewedAt (d : UpdateData) (t : Z) : UpdateData :=
  mkData (d_status d) (d_priority d) (d_lastUpdatedByRole d)
         (d_inQueueAt d) (Some t) (d_maintenanceRequestedAt d)
         (d_implementingActionsAt d) (d_completedAt d).

Definition set_maintenanceRequestedAt (d : UpdateData) (t : Z) : UpdateData :=
  mkData (d_status d) (d_priority d) (d_lastUpdatedByRole d)
         (d_inQueueAt d) (d_viewedAt d) (Some t)
         (d_implementingActionsAt d) (d_completedAt d).

Definition set_implementingActionsAt (d : UpdateData) (t : Z) : UpdateData :=
  mkData (d_status d) (d_priority d) (d_lastUpdatedByRole d)
         (d_inQueueAt d) (d_viewedAt d) (d_maintenanceRequestedAt d)
         (Some t) (d_completedAt d).

Definition set_completedAt (d : UpdateData) (t : Z) : UpdateData :=
  mkData (d_status d) (d_priority d) (d_lastUpdatedByRole d)
         (d_inQueueAt d) (d_viewedAt d) (d_maintenanceRequestedAt d)
         (d_implementingActionsAt d) (Some t).

(** A column after an update: the written value, or the old one. *)
Definition written {A} (new : option A) (old : A) : A := new ?? old.

Definition written_opt {A} (new old : option A) : option A :=
  match new with
  | Some x => Some x
  | None => old
  end.

Definition apply_update (r : Request) (d : UpdateData) : Request :=
  mkRequest (reqId r) (unit_ r) (category r) (description r) (phone r)
    (preferredWindow1 r) (preferredWindow2 r) (accessInstructions r)
    (tenantId r)
    (written (d_status d) (status r))
    (written (d_priority d) (priority r))
    (written_opt (d_lastUpdatedByRole d) (lastUpdatedByRole r))
    (createdAt r)
    (written_opt (d_inQueueAt d) (inQueueAt r))
    (written_opt (d_viewedAt d) (viewedAt r))
    (written_opt (d_maintenanceRequestedAt d) (maintenanceRequestedAt r))
    (written_opt (d_implementingActionsAt d) (implementingActionsAt r))
    (written_opt (d_completedAt d) (completedAt r)).

Record Db : Type := mkDb {
  rows : gmap Z Request;
  serial : Z
}.

Definition empty_db : Db := mkDb ∅ 0.

(** [prisma.request.findUnique({ where: { id } })], for an id that the
    column admits. *)
Definition findUnique (db : Db) (id : Z) : option Request := rows db !! id.

(** [prisma.request.update({ where: { id }, data })]: the updated row and
    the new table, or [None] when it throws because no row has this id. *)
Definition update (db : Db) (id : Z) (d : UpdateData) : option (Request * Db) :=
  match rows db !! id with
  | Some r =>
      let r' := apply_update r d in
      Some (r', mkDb (<[id := r']> (rows db)) (serial db))
  | None => None
  end.

(** The timestamp column of a pipeline stage. *)
Definition stage_at (s : RequestStatus) (r : Request) : option Z :=
  match s with
  | in_queue => inQueueAt r
  | viewed => viewedAt r
  | maintenance_requested => maintenanceRequestedAt r
  | implementing_actions => implementingActionsAt r
  | completed => completedAt r
  end.

(** ** Responses and users *)

Inductive Response : Type :=
  | res_json (code : Z) (r : Request)
  | res_message (code : Z) (message : string).

Record User : Set := mkUser {
  user_id : Z;
  user_role : string
}.

Definition ensureTenant (user : option User) : option User :=
  match user with
  | Some u => if String.eqb (user_role u) "tenant" then Some u else None
  | None => None
  end.

Definition ensureManager (user : option User) : option User :=
  match user with
  | Some u =>
      if String.eqb (user_role u) "manager" || String.eqb (user_role u) "admin"
      then Some u else None
  | None => None
  end.

Definition only_tenants : Response :=
  res_message 403 "Only tenants can perform this action".

Definition only_managers : Response :=
  res_message 403 "Only managers can perform this action".

Definition request_not_found : Response :=
  res_message 404 "Request not found".

Definition invalid_status : Response :=
  res_message 400 "Invalid status".

Definition out_of_order : Response :=
  res_message 400
    "Status must be updated in order: In Queue → Viewed → Maintenance Requested → Implementing Actions → Completed.".

(** ** [POST /]: a tenant creates a request *)

Record CreateBody : Set := mkCreateBody {
  b_unit : option string;
  b_category : option string;
  b_description : option string;
  b_phone : option string;
  b_priority : option string;
  b_preferredTimeWindow : option string;
  b_accessInstructions : option string;
  b_preferredWindow1 : option string;
  b_preferredWindow2 : option string
}.

(** [priority && allowedPriorities.includes(priority) ? priority : "normal"] *)
Definition prioritySafe (priority : option string) : PriorityValue :=
  match truthy priority with
  | Some p =>
      match decode_priority p with
      | Some v => v
      | None => normal
      end
  | None => normal
  end.

(** [prisma.request.create({ data })] with the data of the route: the row
    gets the next id of the sequence, the column default of [createdAt]
    (the clock of the database, [dbNow]) and null in the stage columns
    that the route does not give. This is the insert that goes
    through. *)
Definition create (db : Db) (dbNow : Z)
    (unit category description phone : string) (priority : PriorityValue)
    (w1 w2 accessInstructions : option string) (tenant : Z) (now : Z)
    : Request * Db :=
  let id := serial db + 1 in
  let r :=
    mkRequest id unit category description phone w1 w2 accessInstructions
      tenant in_queue priority (Some "tenant") (Some dbNow)
      (Some now) None None None None in
  (r, mkDb (<[id := r]> (rows db)) id).

Definition required_fields : Response :=
  res_message 400 "unit, category, description, and phone are required".

Definition window1_invalid : Response :=
  res_message 400
    "preferredWindow1 is required and must be a valid 2-hour window between 8 AM and 5 PM.".

Definition window2_invalid : Response :=
  res_message 400
    "preferredWindow2 must be a valid 2-hour window between 8 AM and 5 PM.".

Definition windows_equal : Response :=
  res_message 400 "Preferred windows must be different if two are provided.".

Definition post_request (user : option User) (body : CreateBody)
    (now dbNow : Z) (db : Db) : Response * Db :=
  match ensureTenant user with
  | None => (only_tenants, db)
  | Some user =>
      match truthy (b_unit body), truthy (b_category body),
            truthy (b_description body), truthy (b_phone body) with
      | Some unit, Some category, Some description, Some phone =>
          let prioritySafe := prioritySafe (b_priority body) in
          let w1 := b_preferredWindow1 body in
          let w2 := b_preferredWindow2 body in
          match truthy w1 with
          | None => (window1_invalid, db)
          | Some s1 =>
              if negb (includes allowedWindowOptions s1)
              then (window1_invalid, db)
              else
                let w2_bad :=
                  match truthy w2 with
                  | Some s2 => negb (includes allowedWindowOptions s2)
                  | None => false
                  end in
                if w2_bad then (window2_invalid, db)
                else
                  let same :=
                    match truthy w2 with
                    | Some s2 => String.eqb s1 s2
                    | None => false
                    end in
                  if same then (windows_equal, db)
                  else
                    let '(request, db') :=
                      create db dbNow unit category description phone
                        prioritySafe (Some s1) (truthy w2)
                        (truthy (b_accessInstructions body))
                        (user_id user) now in
                    (res_json 201 request, db')
          end
      | _, _, _, _ => (required_fields, db)
      end
  end.

(** ** [PATCH /:id/close]: the tenant closes a request *)

(** The [data] object that the route builds from the row it read. *)
Definition close_data (existing : Request) (now : Z) : UpdateData :=
  let data :=
    mkData (Some completed) None (Some "tenant") None None None None None in
  let data :=
    if unset (inQueueAt existing)
    then set_inQueueAt data (createdAt existing ?? now)
    else data in
  let data :=
    if unset (viewedAt existing)
       && negb (bool_decide (status existing = in_queue))
    then set_viewedAt data now
    else data in
  let data :=
    if unset (maintenanceRequestedAt existing)
       && (indexOf statusPipeline (status existing)
             >=? indexOf statusPipeline maintenance_requested)
    then set_maintenanceRequestedAt data
           (maintenanceRequestedAt existing ?? now)
    else data in
  let data :=
    if unset (implementingActionsAt existing)
       && (indexOf statusPipeline (status existing)
             >=? indexOf statusPipeline implementing_actions)
    then set_implementingActionsAt data
           (implementingActionsAt existing ?? now)
    else data in
  set_completedAt data (completedAt existing ?? now).

Definition close_failed : Response :=
  res_message 500 "Failed to close request".

Definition patch_close (user : option User) (id : Z) (now : Z) (db : Db)
    : Response * Db :=
  match ensureTenant user with
  | None => (only_tenants, db)
  | Some user =>
      match findUnique db id with
      | None => (request_not_found, db)
      | Some existing =>
          if negb (bool_decide (tenantId existing = user_id user))
          then (request_not_found, db)
          else if bool_decide (status existing = completed)
          then (res_json 200 existing, db)
          else
            match update db id (close_data existing now) with
            | Some (updated, db') => (res_json 200 updated, db')
            | None => (close_failed, db)
            end
      end
  end.

(** ** [PATCH /:id/status]: a manager moves a request along the pipeline *)

Definition status_data (existing : Request) (status : RequestStatus) (now : Z)
    : UpdateData :=
  let data :=
    mkData (Some status) None (Some "manager") None None None None None in
  let data :=
    if unset (inQueueAt existing)
    then set_inQueueAt data (createdAt existing ?? now)
    else data in
  match status with
  | in_queue =>
      if unset (inQueueAt existing) then set_inQueueAt data now else data
  | viewed =>
      if unset (viewedAt existing) then set_viewedAt data now else data
  | maintenance_requested =>
      if unset (maintenanceRequestedAt existing)
      then set_maintenanceRequestedAt data now else data
  | implementing_actions =>
      if unset (implementingActionsAt existing)
      then set_implementingActionsAt data now else data
  | completed =>
      if unset (completedAt existing) then set_completedAt data now else data
  end.

Definition status_failed : Response :=
  res_message 500 "Failed to update status".

Definition patch_status (user : option User) (id : Z)
    (body_status : option string) (now : Z) (db : Db) : Response * Db :=
  match ensureManager user with
  | None => (only_managers, db)
  | Some _ =>
      match mbind decode_status (truthy body_status) with
      | None => (invalid_status, db)
      | Some requested =>
          match findUnique db id with
          | None => (request_not_found, db)
          | Some existing =>
              let currentIndex := indexOf statusPipeline (status existing) in
              let nextIndex := indexOf statusPipeline requested in
              if negb (bool_decide (requested = status existing))
                 && negb (nextIndex =? currentIndex + 1)
              then (out_of_order, db)
              else
                match update db id (status_data existing requested now) with
                | Some (updated, db') => (res_json 200 updated, db')
                | None => (status_failed, db)
                end
          end
      end
  end.

(** ** [PATCH /:id/priority]: a manager changes the priority *)

Definition invalid_priority : Response :=
  res_message 400 "Invalid priority".

Definition priority_failed : Response :=
  res_message 500 "Failed to update priority".

(** The data of the priority route. *)
Definition priority_data (priority : PriorityValue) : UpdateData :=
  mkData None (Some priority) (Some "manager") None None None None None.

Definition patch_priority (user : option User) (id : Z)
    (body_priority : option string) (db : Db) : Response * Db :=
  match ensureManager user with
  | None => (only_managers, db)
  | Some _ =>
      match mbind decode_priority (truthy body_priority) with
      | None => (invalid_priority, db)
      | Some priority =>
          let data := priority_data priority in
          match update db id data with
          | Some (updated, db') => (res_json 200 updated, db')
          | None => (priority_failed, db)
          end
      end
  end.

(** ** The service: calls, the clock and the reachable tables *)

Inductive Call : Type :=
  | PostRequest (user : option User) (body : CreateBody) (now dbNow : Z)
  | PatchClose (user : option User) (id : Z) (now : Z)
  | PatchStatus (user : option User) (id : Z) (status : option string) (now : Z)
  | PatchPriority (user : option User) (id : Z) (priority : option string).

Definition handle (c : Call) (db : Db) : Response * Db :=
  match c with
  | PostRequest user body now dbNow => post_request user body now dbNow db
  | PatchClose user id now => patch_close user id now db
  | PatchStatus user id st now => patch_status user id st now db
  | PatchPriority user id p => patch_priority user id p db
  end.

(** The table after a list of calls, one after the other. *)
Definition run (calls : list Call) (db : Db) : Db :=
  foldl (fun db c => (handle c db).2) db calls.

(** The clock readings of a call against a clock that never runs
    backwards: the reading of the handler comes after the previous call,
    and the column default of the database after the reading of the
    handler. The result is the time after the call. *)
Definition ticks (c : Call) (clk : Z) : option Z :=
  match c with
  | PostRequest _ _ now dbNow =>
      if (clk <=? now) && (now <=? dbNow) then Some dbNow else None
  | PatchClose _ _ now => if clk <=? now then Some now else None
  | PatchStatus _ _ _ now => if clk <=? now then Some now else None
  | PatchPriority _ _ _ => Some clk
  end.

Record World : Type := mkWorld {
  clock : Z;
  db : Db
}.

(** The tables that the service can be in, starting from the empty table,
    when only the calls in [allowed] are made. *)
Inductive reachable (allowed : Call -> bool) : World -> Prop :=
  | reach_init clk : reachable allowed (mkWorld clk empty_db)
  | reach_step w c clk' :
      reachable allowed w ->
      allowed c = true ->
      ticks c (clock w) = Some clk' ->
      reachable allowed (mkWorld clk' (handle c (db w)).2).

Definition any_call (c : Call) : bool := true.

Definition is_close (c : Call) : bool :=
  match c with
  | PatchClose _ _ _ => true
  | _ => false
  end.

Definition is_create (c : Call) : bool :=
  match c with
  | PostRequest _ _ _ _ => true
  | _ => false
  end.

Definition not_close (c : Call) : bool := negb (is_close c).

(** ** The vocabulary of the specification *)

Definition stage_index (s : RequestStatus) : Z := indexOf statusPipeline s.

(** I1: the stage timestamps are set from index 0 up to the index of
    [status], and the next one is not: the index of [status] is the
    highest [h] with the timestamps at [0..h] all set. *)
Definition I1 (r : Request) : Prop :=
  (forall s, stage_index s <= stage_index (status r) -> is_Some (stage_at s r))
  /\ (forall s, stage_index s = stage_index (status r) + 1 -> stage_at s r = None).

(** I3: the timestamps that are set do not decrease along the pipeline. *)
Definition non_decreasing (r : Request) : Prop :=
  forall s1 s2 t1 t2,
    stage_index s1 < stage_index s2 ->
    stage_at s1 r = Some t1 -> stage_at s2 r = Some t2 -> t1 <= t2.

(** A request that the tenant closed before it reached
    [implementing_actions]: it is completed, and the timestamps of the
    other stages are set exactly up to the stage [h] that it had
    reached. *)
Definition closed_early (r : Request) : Prop :=
  status r = completed /\ is_Some (completedAt r)
  /\ exists h, stage_index h < stage_index implementing_actions
       /\ forall s, s <> completed ->
            (is_Some (stage_at s r) <-> stage_index s <= stage_index h).

(** The body [body] with another [priority] and nothing else changed. *)
Definition with_priority (body : CreateBody) (p : option string) : CreateBody :=
  mkCreateBody (b_unit body) (b_category body) (b_description body)
    (b_phone body) p (b_preferredTimeWindow body)
    (b_accessInstructions body) (b_preferredWindow1 body)
    (b_preferredWindow2 body).

Definition res_code (res : Response) : Z :=
  match res with
  | res_json code _ => code
  | res_message code _ => code
  end.

(** ** What a call does to one row *)

(** [row_step c old r']: the call [c] writes the row [r'] under an id
    that held [old] before. A creation writes a fresh row in the queue;
    a close rewrites a row that is not completed; a status call rewrites
    a row when the target is the current status or the next one; a
    priority call rewrites any row. *)
Inductive row_step : Call -> option Request -> Request -> Prop :=
  | step_create user body now dbNow old r' :
      status r' = in_queue ->
      (forall s, stage_at s r' = if bool_decide (s = in_queue) then Some now else None) ->
      row_step (PostRequest user body now dbNow) old r'
  | step_close user id now r :
      status r <> completed ->
      row_step (PatchClose user id now) (Some r)
               (apply_update r (close_data r now))
  | step_status user id st now r requested :
      requested = status r
      \/ stage_index requested = stage_index (status r) + 1 ->
      row_step (PatchStatus user id st now) (Some r)
               (apply_update r (status_data r requested now))
  | step_priority user id p r v :
      row_step (PatchPriority user id p) (Some r)
               (apply_update r (priority_data v)).

(** The world after one more call. *)
Definition after (c : Call) (clk' : Z) (w : World) : World :=
  mkWorld clk' (handle c (db w)).2.

(** The timestamps of a request that only went forward: set exactly up
    to the current status. *)
Definition on_track (r : Request) : Prop :=
  forall s, is_Some (stage_at s r) <-> stage_index s <= stage_index (status r).

(** No timestamp of [r] is later than the clock. *)
Definition not_after (clk : Z) (r : Request) : Prop :=
  forall s t, stage_at s r = Some t -> t <= clk.

(** The shape of every row of a reachable table: the timestamps are set
    up to the stage [h] that the request reached by status calls and
    unset beyond it, but for [completedAt]; the status is [h], or
    completed with [completedAt] set; the timestamps do not decrease and
    are not later than the clock. *)
Definition tracked (clk : Z) (r : Request) : Prop :=
  exists h,
    (forall s, stage_index s <= stage_index h -> is_Some (stage_at s r))
    /\ (forall s, stage_index h < stage_index s -> s <> completed ->
                  stage_at s r = None)
    /\ (status r = h /\ (h <> completed -> completedAt r = None)
        \/ status r = completed /\ is_Some (completedAt r))
    /\ non_decreasing r
    /\ not_after clk r.

(** [r'] is [r] but for the timestamp of stage [x], which was unset and
    is [now], if it differs at all. *)
Definition stamped (r r' : Request) (x : RequestStatus) (now : Z) : Prop :=
  forall s, stage_at s r' = stage_at s r
            \/ (s = x /\ stage_at s r = None /\ stage_at s r' = Some now).

(** ** Sample data *)

Definition tenant7 : option User := Some (mkUser 7 "tenant").
Definition tenant8 : option User := Some (mkUser 8 "tenant").
Definition manager1 : option User := Some (mkUser 1 "manager").

(** A row of tenant 7 with the given status and stage timestamps. *)
Definition sample_row (st : RequestStatus)
    (inQueue viewed_ maintenance implementing completed_ : option Z) : Request :=
  mkRequest 1 "101" "AC" "AC not cooling properly." "555-123-4567"
    (Some "13:00-15:00") None (Some "Please call before coming.")
    7 st normal (Some "manager") (Some 0)
    inQueue viewed_ maintenance implementing completed_.

(** A request created at 100 and viewed at 200. *)
Definition row_viewed : Request :=
  sample_row viewed (Some 100) (Some 200) None None None.

(** A request created at 100 and not yet viewed. *)
Definition row_new : Request :=
  sample_row in_queue (Some 100) None None None None.

(** Scenario C: maintenance requested at 20, nothing later recorded. *)
Definition row_maintenance : Request :=
  sample_row maintenance_requested (Some 0) (Some 10) (Some 20) None None.

(** A row as the seed script inserts it: already at
    [maintenance_requested], with no stage timestamp but the first. *)
Definition row_seeded : Request :=
  sample_row maintenance_requested (Some 0) None None None None.

(** A request that went through every stage. *)
Definition row_completed : Request :=
  sample_row completed (Some 0) (Some 10) (Some 20) (Some 30) (Some 40).

(** The table that holds one row, under id 1. *)
Definition table_of (r : Request) : Db := mkDb {[ 1 := r ]} 1.

Definition sample_body (priority : option string) : CreateBody :=
  mkCreateBody (Some "101") (Some "Water leak")
    (Some "Water dripping under kitchen sink.") (Some "555-123-4567")
    priority None (Some "OK to enter if I am not home.")
    (Some "08:00-10:00") None.

(** The row that the sample body with priority high creates at 100 in the
    empty table. *)
Definition row_created : Request :=
  mkRequest 1 "101" "Water leak" "Water dripping under kitchen sink."
    "555-123-4567" (Some "08:00-10:00") None
    (Some "OK to enter if I am not home.")
    7 in_queue high (Some "tenant") (Some 101) (Some 100) None None None None.

(** A request created at 100, viewed at 200, then closed by its tenant
    at 300. *)
Definition world_created : World :=
  after (PostRequest tenant7 (sample_body (Some "high")) 100 101) 101
        (mkWorld 0 empty_db).

Definition world_viewed : World :=
  after (PatchStatus manager1 1 (Some "viewed") 200) 200 world_created.

Definition world_closed : World :=
  after (PatchClose tenant7 1 300) 300 world_viewed.

Definition row_closed : Request :=
  mkRequest 1 "101" "Water leak" "Water dripping under kitchen sink."
    "555-123-4567" (Some "08:00-10:00") None
    (Some "OK to enter if I am not home.")
    7 completed high (Some "tenant") (Some 101)
    (Some 100) (Some 200) None None (Some 300).

(** The same request, after the manager viewed it. *)
Definition row_created_viewed : Request :=
  mkRequest 1 "101" "Water leak" "Water dripping under kitchen sink."
    "555-123-4567" (Some "08:00-10:00") None
    (Some "OK to enter if I am not home.")
    7 viewed high (Some "manager") (Some 101)
    (Some 100) (Some 200) None None None.

(** ** [GET /mine]: a tenant lists the own requests *)

Inductive ListResponse : Type :=
  | list_json (code : Z) (l : list Request)
  | list_message (code : Z) (message : string).

(** [orderBy: { createdAt: "desc" }]: [r1] may come before [r2]. A null,
    which the column does not admit, would come first, as the database
    orders it. Rows with the same [createdAt] come in the order the
    database chooses; the embedding takes the one of the sort. *)
Definition newest_first (r1 r2 : Request) : Prop :=
  match createdAt r1, createdAt r2 with
  | None, _ => True
  | Some _, None => False
  | Some t1, Some t2 => t2 <= t1
  end.

#[global] Instance newest_first_dec r1 r2 : Decision (newest_first r1 r2).
Proof.
  unfold newest_first.
  destruct (createdAt r1), (createdAt r2); apply _.
Defined.

(** [prisma.request.findMany({ where: { tenantId }, orderBy })] *)
Definition findMany_mine (db : Db) (tenant : Z) : list Request :=
  merge_sort newest_first
    (filter (fun r => tenantId r = tenant) (map_to_list (rows db)).*2).

Definition get_mine (user : option User) (db : Db) : ListResponse :=
  match ensureTenant user with
  | None => list_message 403 "Only tenants can perform this action"
  | Some user => list_json 200 (findMany_mine db (user_id user))
  end.

(** ** The earlier revision of the close and status routes

    The first revision of the router has the same guards; its close
    writes [completedAt] only and its status route writes the timestamp
    of the target only. *)
Module Rev1.

Definition close_data (existing : Request) (now : Z) : UpdateData :=
  mkData (Some completed) None (Some "tenant") None None None None
         (Some (completedAt existing ?? now)).

Definition patch_close (user : option User) (id : Z) (now : Z) (db : Db)
    : Response * Db :=
  match ensureTenant user with
  | None => (only_tenants, db)
  | Some user =>
      match findUnique db id with
      | None => (request_not_found, db)
      | Some existing =>
          if negb (bool_decide (tenantId existing = user_id user))
          then (request_not_found, db)
          else if bool_decide (status existing = completed)
          then (res_json 200 existing, db)
          else
            match update db id (close_data existing now) with
            | Some (updated, db') => (res_json 200 updated, db')
            | None => (close_failed, db)
            end
      end
  end.

Definition status_data (existing : Request) (status : RequestStatus) (now : Z)
    : UpdateData :=
  let data :=
    mkData (Some status) None (Some "manager") None None None None None in
  match status with
  | in_queue =>
      if unset (inQueueAt existing) then set_inQueueAt data now else data
  | viewed =>
      if unset (viewedAt existing) then set_viewedAt data now else data
  | maintenance_requested =>
      if unset (maintenanceRequestedAt existing)
      then set_maintenanceRequestedAt data now else data
  | implementing_actions =>
      if unset (implementingActionsAt existing)
      then set_implementingActionsAt data now else data
  | completed =>
      if unset (completedAt existing) then set_completedAt data now else data
  end.

Definition patch_status (user : option User) (id : Z)
    (body_status : option string) (now : Z) (db : Db) : Response * Db :=
  match ensureManager user with
  | None => (only_managers, db)
  | Some _ =>
      match mbind decode_status (truthy body_status) with
      | None => (invalid_status, db)
      | Some requested =>
          match findUnique db id with
          | None => (request_not_found, db)
          | Some existing =>
              let currentIndex := indexOf statusPipeline (status existing) in
              let nextIndex := indexOf statusPipeline requested in
              if negb (bool_decide (requested = status existing))
                 && negb (nextIndex =? currentIndex + 1)
              then (out_of_order, db)
              else
                match update db id (status_data existing requested now) with
                | Some (updated, db') => (res_json 200 updated, db')
                | None => (status_failed, db)
                end
          end
      end
  end.

End Rev1.

(** ** The login route

    [POST /auth/login]. The password check of bcrypt and the signature
    of the token are libraries: they are parameters. The table of users
    is a list; [findUnique] by email gives the row with that email. *)
Module Auth.

Record UserRow : Set := mkUserRow {
  id : Z;
  name : string;
  email : string;
  passwordHash : string;
  role : string;
  createdAt : Z;
  updatedAt : Z
}.

(** [const { passwordHash, ...safeUser } = user] *)
Record SafeUser : Set := mkSafeUser {
  safe_id : Z;
  safe_name : string;
  safe_email : string;
  safe_role : string;
  safe_createdAt : Z;
  safe_updatedAt : Z
}.

Definition safeUser (u : UserRow) : SafeUser :=
  mkSafeUser (id u) (name u) (email u) (role u) (createdAt u) (updatedAt u).

Inductive LoginResponse : Set :=
  | login_json (token : string) (user : SafeUser)
  | login_message (code : Z) (message : string).

Definition findUnique_email (users : list UserRow) (e : string)
    : option UserRow :=
  find (fun u => String.eqb (email u) e) users.

Section Login.

(** [bcrypt.compare(password, hash)] *)
Variable compare : string -> string -> bool.

(** [signToken({ id, role })] *)
Variable signToken : Z -> string -> string.

Definition login (body_email body_password : option string)
    (users : list UserRow) : LoginResponse :=
  match truthy body_email, truthy body_password with
  | Some email, Some password =>
      match findUnique_email users email with
      | None => login_message 401 "Invalid credentials"
      | Some user =>
          if negb (compare password (passwordHash user))
          then login_message 401 "Invalid credentials"
          else login_json (signToken (id user) (role user)) (safeUser user)
      end
  | _, _ => login_message 400 "Email and password required"
  end.

End Login.

End Auth.

(** ** The pages of the frontend

    [App], [ProtectedRoute] and the navigation of [LoginPage] after a
    login. A location is given by the route of [App] that matches it; an
    element is a page or a [Navigate] to another route. *)
Module Frontend.

Inductive Route : Set :=
  | at_login
  | at_manager
  | at_tenant
  | at_root
  | at_other.

Inductive Element : Set :=
  | LoginPage
  | ManagerDashboard
  | TenantDashboard
  | Loading
  | Navigate (to : Route).

(** What [useAuth] gives. *)
Record AuthState : Set := mkAuth {
  user : option User;
  loading : bool
}.

Definition ProtectedRoute (auth : AuthState)
    (allowedRoles : option (list string)) (children : Element) : Element :=
  if loading auth then Loading
  else
    match user auth with
    | None => Navigate at_login
    | Some u =>
        match allowedRoles with
        | Some roles =>
            if negb (includes roles (user_role u))
            then Navigate at_root
            else children
        | None => children
        end
    end.

Definition App (auth : AuthState) (route : Route) : Element :=
  match route with
  | at_login => LoginPage
  | at_manager => ProtectedRoute auth (Some ["manager"]) ManagerDashboard
  | at_tenant => ProtectedRoute auth (Some ["tenant"]) TenantDashboard
  | at_root =>
      match user auth with
      | Some u =>
          Navigate (if String.eqb (user_role u) "manager"
                    then at_manager else at_tenant)
      | None => Navigate at_login
      end
  | at_other => Navigate at_root
  end.

(** Where [handleSubmit] of the login page navigates once the login has
    succeeded. *)
Definition after_login (email : string) : Route :=
  if String.eqb email "manager@example.com" then at_manager else at_tenant.

(** Following the [Navigate]s from a route, at most [fuel] of them, to
    the page that is shown. *)
Fixpoint settle (fuel : nat) (auth : AuthState) (route : Route)
    : option Element :=
  match App auth route with
  | Navigate to =>
      match fuel with
      | O => None
      | S fuel' => settle fuel' auth to
      end
  | page => Some page
  end.

End Frontend.

(** ** More vocabulary *)

(** The user on whose behalf a call is made. *)
Definition caller (c : Call) : option User :=
  match c with
  | PostRequest user _ _ _ => user
  | PatchClose user _ _ => user
  | PatchStatus user _ _ _ => user
  | PatchPriority user _ _ => user
  end.

(** The id that a call names, if it names one. *)
Definition target (c : Call) : option Z :=
  match c with
  | PostRequest _ _ _ _ => None
  | PatchClose _ id _ => Some id
  | PatchStatus _ id _ _ => Some id
  | PatchPriority _ id _ => Some id
  end.

(** Every row is stored under its own id, and the ids in use are those
    that the sequence has given out. *)
Definition well_keyed (db : Db) : Prop :=
  forall id r, rows db !! id = Some r -> reqId r = id /\ 1 <= id <= serial db.

(** What the creation route checks before it stores a row. *)
Definition well_formed (r : Request) : Prop :=
  unit_ r <> "" /\ category r <> "" /\ description r <> "" /\ phone r <> ""
  /\ (exists w1, preferredWindow1 r = Some w1 /\ w1 ∈ allowedWindowOptions)
  /\ (forall w2, preferredWindow2 r = Some w2 ->
        w2 ∈ allowedWindowOptions /\ preferredWindow1 r <> Some w2)
  /\ accessInstructions r <> Some "".

(** The columns that no route writes after the creation. *)
Definition same_content (r r' : Request) : Prop :=
  reqId r' = reqId r /\ unit_ r' = unit_ r /\ category r' = category r
  /\ description r' = description r /\ phone r' = phone r
  /\ preferredWindow1 r' = preferredWindow1 r
  /\ preferredWindow2 r' = preferredWindow2 r
  /\ accessInstructions r' = accessInstructions r
  /\ tenantId r' = tenantId r /\ createdAt r' = createdAt r.

(** The stage timestamps of [r] and [r'] are the same. *)
Definition same_stamps (r r' : Request) : Prop :=
  forall s, stage_at s r' = stage_at s r.

(** ** Basic facts *)

Lemma forall_stage (P : RequestStatus -> Prop) :
  (forall s, P s) <->
  P in_queue /\ P viewed /\ P maintenance_requested
  /\ P implementing_actions /\ P completed.
Proof.
  split.
  - intros H. repeat split; apply H.
  - intros (H0 & H1 & H2 & H3 & H4) s. destruct s; assumption.
Qed.

Lemma stage_index_range s : 0 <= stage_index s <= 4.
Proof. destruct s; vm_compute; split; discriminate. Qed.

Lemma stage_index_inj s1 s2 : stage_index s1 = stage_index s2 -> s1 = s2.
Proof. destruct s1, s2; vm_compute; congruence. Qed.

Lemma decode_status_str s : decode_status (status_str s) = Some s.
Proof. destruct s; reflexivity. Qed.

Lemma truthy_status_str s : truthy (Some (status_str s)) = Some (status_str s).
Proof. destruct s; reflexivity. Qed.

Lemma decode_priority_str p : decode_priority (priority_str p) = Some p.
Proof. destruct p; reflexivity. Qed.

Lemma truthy_priority_str p :
  truthy (Some (priority_str p)) = Some (priority_str p).
Proof. destruct p; reflexivity. Qed.

Lemma decode_priority_Some s p : decode_priority s = Some p -> s = priority_str p.
Proof.
  unfold decode_priority, allowedPriorities. cbn [find].
  repeat match goal with
         | |- context [String.eqb s ?lit] =>
             destruct (String.eqb_spec s lit) as [->|_];
             [intros [= <-]; reflexivity|]
         end.
  discriminate.
Qed.

Lemma decode_status_Some s st : decode_status s = Some st -> s = status_str st.
Proof.
  unfold decode_status, allowedStatusValues, statusPipeline. cbn [find].
  repeat match goal with
         | |- context [String.eqb s ?lit] =>
             destruct (String.eqb_spec s lit) as [->|_];
             [intros [= <-]; reflexivity|]
         end.
  discriminate.
Qed.

Lemma update_found (db : Db) id r d :
  findUnique db id = Some r ->
  update db id d
  = Some (apply_update r d, mkDb (<[id := apply_update r d]> (rows db)) (serial db)).
Proof. unfold findUnique, update. intros ->. reflexivity. Qed.

Lemma ensureManager_Some user u :
  ensureManager user = Some u ->
  user = Some u /\ (user_role u = "manager" \/ user_role u = "admin").
Proof.
  unfold ensureManager. destruct user as [v|]; [|discriminate].
  destruct (String.eqb_spec (user_role v) "manager") as [E|_]; cbn.
  - intros [= ->]. auto.
  - destruct (String.eqb_spec (user_role v) "admin") as [E|_]; [|discriminate].
    intros [= ->]. auto.
Qed.

Lemma ensureTenant_Some user u :
  ensureTenant user = Some u -> user = Some u /\ user_role u = "tenant".
Proof.
  unfold ensureTenant. destruct user as [v|]; [|discriminate].
  destruct (String.eqb_spec (user_role v) "tenant") as [E|_]; [|discriminate].
  intros [= ->]. auto.
Qed.

(** The request of a status call with a valid literal, once the manager
    is let in and the row is found. *)
Lemma patch_status_found user u id requested now (db : Db) existing :
  ensureManager user = Some u ->
  findUnique db id = Some existing ->
  patch_status user id (Some (status_str requested)) now db
  = if negb (bool_decide (requested = status existing))
       && negb (stage_index requested =? stage_index (status existing) + 1)
    then (out_of_order, db)
    else (res_json 200 (apply_update existing (status_data existing requested now)),
          mkDb (<[id := apply_update existing (status_data existing requested now)]>
                  (rows db)) (serial db)).
Proof.
  intros Hu Hf. unfold patch_status. rewrite Hu, truthy_status_str. cbn [mbind option_bind].
  rewrite decode_status_str, Hf. fold (stage_index requested).
  fold (stage_index (status existing)).
  destruct (_ && _); [reflexivity|].
  rewrite (update_found _ _ _ _ Hf). reflexivity.
Qed.

Lemma patch_close_found user u id now (db : Db) existing :
  ensureTenant user = Some u ->
  findUnique db id = Some existing ->
  patch_close user id now db
  = if negb (bool_decide (tenantId existing = user_id u))
    then (request_not_found, db)
    else if bool_decide (status existing = completed)
    then (res_json 200 existing, db)
    else (res_json 200 (apply_update existing (close_data existing now)),
          mkDb (<[id := apply_update existing (close_data existing now)]>
                  (rows db)) (serial db)).
Proof.
  intros Hu Hf. unfold patch_close. rewrite Hu, Hf.
  destruct (negb _); [reflexivity|].
  destruct (bool_decide _); [reflexivity|].
  rewrite (update_found _ _ _ _ Hf). reflexivity.
Qed.

(** ** Out-of-order transitions *)

(** C4. A status call whose target differs from the current status and is
    not the stage right after it (a skip forward or a move backward) is
    answered with the 400 response that names the required order, and the
    table, hence every field of the request, is left as it was. *)
Theorem advanceStatus_out_of_order user u id requested now (db : Db) r :
  ensureManager user = Some u ->
  findUnique db id = Some r ->
  requested <> status r ->
  stage_index requested <> stage_index (status r) + 1 ->
  patch_status user id (Some (status_str requested)) now db = (out_of_order, db)
  /\ res_code out_of_order = 400.
Proof.
  intros Hu Hf Hne Hidx. split; [|reflexivity].
  rewrite (patch_status_found _ _ _ _ _ _ _ Hu Hf).
  rewrite bool_decide_eq_false_2 by assumption.
  destruct (Z.eqb_spec (stage_index requested) (stage_index (status r) + 1));
    [contradiction|reflexivity].
Qed.

(** Scenario B: a viewed request cannot jump to completed. *)
Lemma advanceStatus_out_of_order_witness :
  patch_status manager1 1 (Some "completed") 300 (table_of row_viewed)
  = (out_of_order, table_of row_viewed)
  /\ res_code out_of_order = 400.
Proof.
  apply (advanceStatus_out_of_order manager1 (mkUser 1 "manager") 1 completed
           300 (table_of row_viewed) row_viewed).
  - reflexivity.
  - reflexivity.
  - discriminate.
  - vm_compute. discriminate.
Defined.

(** ** Legal transitions and confirmations *)

(** What [status_data] writes, column by column. *)
Lemma status_data_stage r requested now s :
  stage_at s (apply_update r (status_data r requested now))
  = if bool_decide (s = requested) then Some (stage_at s r ?? now)
    else if bool_decide (s = in_queue)
    then Some (inQueueAt r ?? createdAt r ?? now)
    else stage_at s r.
Proof.
  destruct r as [? ? ? ? ? ? ? ? ? st ? ? ca iq vw mr ia cp].
  destruct requested, s, iq, vw, mr, ia, cp; reflexivity.
Qed.

Lemma status_data_frame r requested now :
  let r' := apply_update r (status_data r requested now) in
  status r' = requested /\ priority r' = priority r
  /\ lastUpdatedByRole r' = Some "manager"
  /\ reqId r' = reqId r /\ tenantId r' = tenantId r
  /\ createdAt r' = createdAt r.
Proof.
  destruct r as [? ? ? ? ? ? ? ? ? st ? ? ca iq vw mr ia cp].
  destruct requested, iq, vw, mr, ia, cp; repeat split; reflexivity.
Qed.

(** C3, as the code has it. A legal status call (the target is the stage
    right after the current one) succeeds, sets the status to the target
    and [lastUpdatedByRole] to manager; after it [inQueueAt] is set (an
    unset one is back-filled with the creation instant, or with the
    current instant when there is none); the timestamp of the target is
    the current instant if it was unset and is left as it was otherwise;
    the timestamp of every other stage, set or not, is left as it was. *)
Theorem advanceStatus_legal user u id requested now (db : Db) r :
  ensureManager user = Some u ->
  findUnique db id = Some r ->
  stage_index requested = stage_index (status r) + 1 ->
  exists r',
    patch_status user id (Some (status_str requested)) now db
    = (res_json 200 r', mkDb (<[id := r']> (rows db)) (serial db))
    /\ status r' = requested
    /\ lastUpdatedByRole r' = Some "manager"
    /\ priority r' = priority r
    /\ inQueueAt r' = Some (inQueueAt r ?? createdAt r ?? now)
    /\ stage_at requested r' = Some (stage_at requested r ?? now)
    /\ (forall s, s <> in_queue -> s <> requested -> stage_at s r' = stage_at s r)
    /\ ((forall s, s <> in_queue -> stage_index s < stage_index requested ->
                   is_Some (stage_at s r)) ->
        forall s, stage_index s < stage_index requested -> is_Some (stage_at s r')).
Proof.
  intros Hu Hf Hidx.
  exists (apply_update r (status_data r requested now)).
  rewrite (patch_status_found _ _ _ _ _ _ _ Hu Hf).
  rewrite (proj2 (Z.eqb_eq _ _) Hidx), andb_false_r.
  destruct (status_data_frame r requested now) as (Hs & Hp & Hl & _).
  repeat apply conj; try assumption.
  - reflexivity.
  - change (inQueueAt ?x) with (stage_at in_queue x) at 1.
    rewrite status_data_stage.
    case_bool_decide as E; [|reflexivity].
    subst requested. pose proof (stage_index_range (status r)).
    change (stage_index in_queue) with 0 in Hidx. lia.
  - rewrite status_data_stage. rewrite bool_decide_eq_true_2; reflexivity.
  - intros s H0 Hr. rewrite status_data_stage.
    rewrite !bool_decide_eq_false_2 by assumption. reflexivity.
  - intros Hset s Hlt. rewrite status_data_stage.
    case_bool_decide; [eauto|]. case_bool_decide; [eauto|].
    apply Hset; assumption.
Qed.

(** Scenario A: created at 100, viewed at 200. *)
Lemma advanceStatus_legal_witness :
  exists r',
    patch_status manager1 1 (Some "viewed") 200 (table_of row_new)
    = (res_json 200 r', mkDb (<[1 := r']> (rows (table_of row_new))) 1)
    /\ status r' = viewed
    /\ lastUpdatedByRole r' = Some "manager"
    /\ priority r' = normal
    /\ inQueueAt r' = Some 100
    /\ viewedAt r' = Some 200
    /\ (forall s, s <> in_queue -> s <> viewed -> stage_at s r' = stage_at s row_new)
    /\ ((forall s, s <> in_queue -> stage_index s < stage_index viewed ->
                   is_Some (stage_at s row_new)) ->
        forall s, stage_index s < stage_index viewed -> is_Some (stage_at s r')).
Proof.
  apply (advanceStatus_legal manager1 (mkUser 1 "manager") 1 viewed 200
           (table_of row_new) row_new); reflexivity.
Defined.

(** C3 as stated fails: the seeded row at [maintenance_requested] moves
    legally to [implementing_actions], and the earlier stage [viewed]
    still has no timestamp afterwards. *)
Lemma advanceStatus_backfill_counterexample :
  ~ (forall user u id requested now (db : Db) r,
       ensureManager user = Some u ->
       findUnique db id = Some r ->
       stage_index requested = stage_index (status r) + 1 ->
       exists r',
         findUnique (patch_status user id (Some (status_str requested)) now db).2 id
         = Some r'
         /\ forall s, stage_index s < stage_index requested ->
                      is_Some (stage_at s r')).
Proof.
  intros H.
  destruct (H manager1 (mkUser 1 "manager") 1 implementing_actions 50
              (table_of row_seeded) row_seeded eq_refl eq_refl eq_refl)
    as (r' & Hr' & Hall).
  vm_compute in Hr'. injection Hr' as <-.
  destruct (Hall viewed) as [t Ht]; [vm_compute; reflexivity|].
  discriminate Ht.
Qed.

(** C7, as the code has it. A status call that names the current status
    is never rejected: it sets [lastUpdatedByRole] to manager and leaves
    as they were the status, the priority, every stage timestamp that is
    set, and the id, the owner, the creation instant and the columns
    that describe the request. It does write timestamps that are unset:
    the timestamp of the current stage, if unset, becomes the current
    instant, and an unset [inQueueAt] becomes the creation instant, or
    the current instant when there is none or when the current status
    is [in_queue]. The timestamps of the other stages are left as they
    were, so that when [inQueueAt] and the timestamp of the current
    stage are set no stage timestamp changes. *)
Theorem advanceStatus_same_status user u id now (db : Db) r :
  ensureManager user = Some u ->
  findUnique db id = Some r ->
  exists r',
    patch_status user id (Some (status_str (status r))) now db
    = (res_json 200 r', mkDb (<[id := r']> (rows db)) (serial db))
    /\ status r' = status r
    /\ priority r' = priority r
    /\ lastUpdatedByRole r' = Some "manager"
    /\ same_content r r'
    /\ stage_at (status r) r' = Some (stage_at (status r) r ?? now)
    /\ (status r <> in_queue ->
        inQueueAt r' = Some (inQueueAt r ?? createdAt r ?? now))
    /\ (forall s t, stage_at s r = Some t -> stage_at s r' = Some t)
    /\ (forall s, s <> in_queue -> s <> status r -> stage_at s r' = stage_at s r)
    /\ (is_Some (inQueueAt r) -> is_Some (stage_at (status r) r) ->
        same_stamps r r').
Proof.
  intros Hu Hf.
  exists (apply_update r (status_data r (status r) now)).
  rewrite (patch_status_found _ _ _ _ _ _ _ Hu Hf).
  rewrite bool_decide_eq_true_2 by reflexivity. cbn [negb andb].
  destruct (status_data_frame r (status r) now) as (Hs & Hp & Hl & _).
  split; [reflexivity|].
  split; [assumption|]. split; [assumption|]. split; [assumption|].
  split; [repeat apply conj; reflexivity|].
  split.
  { rewrite status_data_stage, bool_decide_eq_true_2 by reflexivity.
    reflexivity. }
  split.
  { intros Hne. change (inQueueAt ?x) with (stage_at in_queue x) at 1.
    rewrite status_data_stage.
    rewrite bool_decide_eq_false_2 by congruence.
    rewrite bool_decide_eq_true_2 by reflexivity. reflexivity. }
  split.
  { intros s t Hst. rewrite status_data_stage.
    repeat case_bool_decide; subst; cbn [stage_at] in *; rewrite ?Hst;
      reflexivity. }
  split.
  { intros s H0 Hne. rewrite status_data_stage.
    rewrite !bool_decide_eq_false_2 by assumption. reflexivity. }
  intros [t0 H0] [t1 H1] s. rewrite status_data_stage.
  case_bool_decide as E; [subst s; rewrite H1; reflexivity|].
  case_bool_decide as E0; [subst s; cbn [stage_at]; rewrite H0; reflexivity|].
  reflexivity.
Qed.

(** On the seeded row, at [maintenance_requested] without the timestamp
    of that stage, confirming the status at 50 records 50 for the stage
    and leaves the rest. *)
Lemma advanceStatus_same_status_witness :
  exists r',
    patch_status manager1 1 (Some "maintenance_requested") 50
      (table_of row_seeded)
    = (res_json 200 r', mkDb (<[1 := r']> (rows (table_of row_seeded))) 1)
    /\ status r' = maintenance_requested
    /\ priority r' = normal
    /\ lastUpdatedByRole r' = Some "manager"
    /\ same_content row_seeded r'
    /\ maintenanceRequestedAt r' = Some 50
    /\ inQueueAt r' = Some 0
    /\ viewedAt r' = None.
Proof.
  destruct (advanceStatus_same_status manager1 (mkUser 1 "manager") 1 50
              (table_of row_seeded) row_seeded)
    as (r' & Hres & Hs & Hp & Hl & Hc & Hcur & Hq & _ & Hother & _);
    [reflexivity | reflexivity |].
  exists r'.
  split; [exact Hres|]. split; [exact Hs|]. split; [exact Hp|].
  split; [exact Hl|]. split; [exact Hc|]. split; [exact Hcur|].
  split; [apply Hq; discriminate|].
  apply (Hother viewed); discriminate.
Defined.

(** C7 as stated fails: on the seeded row, which is at
    [maintenance_requested] without the timestamp of that stage,
    confirming the status changes a stage timestamp. *)
Lemma advanceStatus_same_status_counterexample :
  ~ (forall user u id now (db : Db) r,
       ensureManager user = Some u ->
       findUnique db id = Some r ->
       exists r',
         findUnique
           (patch_status user id (Some (status_str (status r))) now db).2 id
         = Some r'
         /\ status r' = status r
         /\ priority r' = priority r
         /\ lastUpdatedByRole r' = Some "manager"
         /\ same_stamps r r').
Proof.
  intros H.
  destruct (H manager1 (mkUser 1 "manager") 1 50 (table_of row_seeded)
              row_seeded eq_refl eq_refl) as (r' & Hr' & _ & _ & _ & Hst).
  vm_compute in Hr'. injection Hr' as <-.
  specialize (Hst maintenance_requested). discriminate Hst.
Qed.

(** ** Early closure *)

(** What [close_data] writes, column by column. *)
Lemma close_data_stage r now s :
  stage_at s (apply_update r (close_data r now))
  = if bool_decide (s = completed) then Some (completedAt r ?? now)
    else if bool_decide (s = in_queue)
    then Some (inQueueAt r ?? createdAt r ?? now)
    else if stage_index s <=? stage_index (status r)
    then Some (stage_at s r ?? now)
    else stage_at s r.
Proof.
  destruct r as [? ? ? ? ? ? ? ? ? st ? ? ca iq vw mr ia cp].
  destruct st, s, iq, vw, mr, ia, cp; reflexivity.
Qed.

Lemma close_data_frame r now :
  let r' := apply_update r (close_data r now) in
  status r' = completed /\ priority r' = priority r
  /\ lastUpdatedByRole r' = Some "tenant"
  /\ reqId r' = reqId r /\ tenantId r' = tenantId r
  /\ createdAt r' = createdAt r.
Proof.
  destruct r as [? ? ? ? ? ? ? ? ? st ? ? ca iq vw mr ia cp].
  destruct st, iq, vw, mr, ia, cp; repeat split; reflexivity.
Qed.

(** C1, as the code has it. Closing a request that is not completed sets
    the status to completed and [lastUpdatedByRole] to tenant;
    [completedAt] becomes the closing instant unless it was set;
    [inQueueAt] is back-filled when unset; a stage up to the current
    status gets the closing instant only if it had no timestamp; and the
    stages strictly between the current status and completed, which the
    request never reached, keep the timestamp they had: an unset one
    stays unset. *)
Theorem closeEarly_effect user u id now (db : Db) r :
  ensureTenant user = Some u ->
  findUnique db id = Some r ->
  tenantId r = user_id u ->
  status r <> completed ->
  exists r',
    patch_close user id now db
    = (res_json 200 r', mkDb (<[id := r']> (rows db)) (serial db))
    /\ status r' = completed
    /\ lastUpdatedByRole r' = Some "tenant"
    /\ priority r' = priority r
    /\ completedAt r' = Some (completedAt r ?? now)
    /\ inQueueAt r' = Some (inQueueAt r ?? createdAt r ?? now)
    /\ (forall s, s <> in_queue ->
                  stage_index s <= stage_index (status r) ->
                  stage_at s r' = Some (stage_at s r ?? now))
    /\ (forall s, stage_index (status r) < stage_index s < stage_index completed ->
                  stage_at s r' = stage_at s r).
Proof.
  intros Hu Hf Hown Hst.
  exists (apply_update r (close_data r now)).
  rewrite (patch_close_found _ _ _ _ _ _ Hu Hf).
  rewrite (bool_decide_eq_true_2 _ Hown), (bool_decide_eq_false_2 _ Hst).
  cbn [negb].
  destruct (close_data_frame r now) as (Hs & Hp & Hl & _).
  repeat apply conj; try assumption.
  - reflexivity.
  - apply (close_data_stage r now completed).
  - apply (close_data_stage r now in_queue).
  - intros s H0 Hle. rewrite close_data_stage.
    case_bool_decide as Ec.
    + subst s. exfalso.
      assert (stage_index (status r) = stage_index completed)
        by (pose proof (stage_index_range (status r));
            change (stage_index completed) with 4 in *; lia).
      apply Hst, stage_index_inj. assumption.
    + rewrite bool_decide_eq_false_2 by assumption.
      rewrite (proj2 (Z.leb_le _ _) Hle). reflexivity.
  - intros s [Hlo Hhi]. rewrite close_data_stage.
    case_bool_decide as Ec; [subst s; lia|].
    case_bool_decide as E0.
    + subst s. pose proof (stage_index_range (status r)).
      change (stage_index in_queue) with 0 in Hlo. lia.
    + rewrite (proj2 (Z.leb_gt _ _) Hlo). reflexivity.
Qed.

(** Scenario C on the code: maintenance requested at 20, closed at 30.
    [implementingActionsAt] stays unset. *)
Lemma closeEarly_effect_witness :
  exists r',
    patch_close tenant7 1 30 (table_of row_maintenance)
    = (res_json 200 r', mkDb (<[1 := r']> (rows (table_of row_maintenance))) 1)
    /\ status r' = completed
    /\ lastUpdatedByRole r' = Some "tenant"
    /\ completedAt r' = Some 30
    /\ maintenanceRequestedAt r' = Some 20
    /\ implementingActionsAt r' = None.
Proof.
  destruct (closeEarly_effect tenant7 (mkUser 7 "tenant") 1 30
              (table_of row_maintenance) row_maintenance)
    as (r' & Hres & Hs & Hl & _ & Hc & _ & Hreached & Hskipped);
    [reflexivity | reflexivity | reflexivity | discriminate |].
  exists r'. repeat apply conj; try assumption.
  - apply (Hreached maintenance_requested); [discriminate|reflexivity].
  - apply (Hskipped implementing_actions). vm_compute. auto.
Defined.

(** C1 as stated fails on scenario C: after the tenant closes at 30 the
    request that was at [maintenance_requested],
    [implementingActionsAt] is not 30 but still unset. *)
Lemma closeEarly_skipped_stage_counterexample :
  ~ (forall user u id now (db : Db) r,
       ensureTenant user = Some u ->
       findUnique db id = Some r ->
       tenantId r = user_id u ->
       status r <> completed ->
       exists r',
         findUnique (patch_close user id now db).2 id = Some r'
         /\ status r' = completed
         /\ forall s, stage_index (status r) < stage_index s < stage_index completed ->
                      stage_at s r' = Some now).
Proof.
  intros H.
  destruct (H tenant7 (mkUser 7 "tenant") 1 30 (table_of row_maintenance)
              row_maintenance eq_refl eq_refl eq_refl)
    as (r' & Hr' & _ & Hall); [discriminate|].
  vm_compute in Hr'. injection Hr' as <-.
  specialize (Hall implementing_actions).
  cbn [stage_at implementingActionsAt sample_row] in Hall.
  assert (@None Z = Some 30) as E by (apply Hall; vm_compute; auto).
  discriminate E.
Qed.

(** C8. Closing a completed request answers with the request as it is
    and leaves the table as it was; hence a second close, at whatever
    instant, gives the same answer and the same table as the first. *)
Theorem closeEarly_idempotent user id now1 now2 (db : Db) :
  (forall u r,
      ensureTenant user = Some u ->
      findUnique db id = Some r ->
      tenantId r = user_id u ->
      status r = completed ->
      patch_close user id now1 db = (res_json 200 r, db))
  /\ patch_close user id now2 (patch_close user id now1 db).2
     = patch_close user id now1 db.
Proof.
  split.
  - intros u r Hu Hf Hown Hst.
    rewrite (patch_close_found _ _ _ _ _ _ Hu Hf).
    rewrite (bool_decide_eq_true_2 _ Hown), (bool_decide_eq_true_2 _ Hst).
    reflexivity.
  - destruct (ensureTenant user) as [u|] eqn:Hu;
      [|unfold patch_close; rewrite Hu; cbn; rewrite ?Hu; reflexivity].
    destruct (findUnique db id) as [r|] eqn:Hf;
      [|unfold patch_close; rewrite Hu, Hf; cbn; rewrite ?Hu, ?Hf; reflexivity].
    rewrite (patch_close_found _ _ _ now1 _ _ Hu Hf).
    case_bool_decide as Hown; cbn [negb];
      [|cbn [snd]; rewrite (patch_close_found _ _ _ _ _ _ Hu Hf),
          (bool_decide_eq_false_2 _ Hown); reflexivity].
    case_bool_decide as Hst.
    + cbn [snd]. rewrite (patch_close_found _ _ _ _ _ _ Hu Hf).
      rewrite (bool_decide_eq_true_2 _ Hown), (bool_decide_eq_true_2 _ Hst).
      reflexivity.
    + cbn [snd].
      destruct (close_data_frame r now1) as (Hs & _ & _ & _ & Ht & _).
      erewrite patch_close_found;
        [|exact Hu|unfold findUnique; cbn [rows]; apply lookup_insert_eq].
      rewrite Ht, (bool_decide_eq_true_2 _ Hown), (bool_decide_eq_true_2 _ Hs).
      reflexivity.
Qed.

Lemma closeEarly_idempotent_witness :
  patch_close tenant7 1 50 (table_of row_completed)
  = (res_json 200 row_completed, table_of row_completed)
  /\ patch_close tenant7 1 60 (patch_close tenant7 1 50 (table_of row_new)).2
     = patch_close tenant7 1 50 (table_of row_new).
Proof.
  split.
  - apply (proj1 (closeEarly_idempotent tenant7 1 50 60 (table_of row_completed))
             (mkUser 7 "tenant") row_completed); reflexivity.
  - apply (proj2 (closeEarly_idempotent tenant7 1 50 60 (table_of row_new))).
Defined.

(** C9, as the code has it. When a tenant who does not own the request
    closes it, the answer is the 404 "Request not found", the very
    response given for an id that has no row, and the table is left as
    it was. *)
Theorem closeEarly_not_owner user u id now (db : Db) r :
  ensureTenant user = Some u ->
  findUnique db id = Some r ->
  tenantId r <> user_id u ->
  patch_close user id now db = (request_not_found, db)
  /\ res_code request_not_found = 404
  /\ forall db0 : Db, findUnique db0 id = None ->
       patch_close user id now db0 = (request_not_found, db0).
Proof.
  intros Hu Hf Hown. repeat apply conj.
  - rewrite (patch_close_found _ _ _ _ _ _ Hu Hf).
    rewrite (bool_decide_eq_false_2 _ Hown). reflexivity.
  - reflexivity.
  - intros db0 Hnone. unfold patch_close. rewrite Hu, Hnone. reflexivity.
Qed.

Lemma closeEarly_not_owner_witness :
  patch_close tenant8 1 50 (table_of row_viewed)
  = (request_not_found, table_of row_viewed)
  /\ res_code request_not_found = 404
  /\ forall db0 : Db, findUnique db0 1 = None ->
       patch_close tenant8 1 50 db0 = (request_not_found, db0).
Proof.
  apply (closeEarly_not_owner tenant8 (mkUser 8 "tenant") 1 50
           (table_of row_viewed) row_viewed);
    [reflexivity | reflexivity | discriminate].
Defined.

(** C9 as stated fails: the answer to the tenant who is not the owner is
    not a 403. *)
Lemma closeEarly_forbidden_counterexample :
  ~ (forall user u id now (db : Db) r,
       ensureTenant user = Some u ->
       findUnique db id = Some r ->
       tenantId r <> user_id u ->
       res_code (patch_close user id now db).1 = 403
       /\ (patch_close user id now db).2 = db).
Proof.
  intros H.
  destruct (H tenant8 (mkUser 8 "tenant") 1 50 (table_of row_viewed)
              row_viewed eq_refl eq_refl) as [Hcode _]; [discriminate|].
  vm_compute in Hcode. discriminate Hcode.
Qed.

(** ** Creation *)

Lemma prioritySafe_absent p :
  (p = None \/ exists s, p = Some s /\ s ∉ priority_str <$> allowedPriorities) ->
  prioritySafe p = normal.
Proof.
  intros [->|(s & -> & Hs)]; [reflexivity|].
  unfold prioritySafe, truthy.
  destruct (String.eqb s ""); [reflexivity|].
  destruct (decode_priority s) as [v|] eqn:E; [|reflexivity].
  exfalso. apply Hs. apply decode_priority_Some in E. subst s.
  apply list_elem_of_fmap_2. destruct v; set_solver.
Qed.

Lemma prioritySafe_allowed v : prioritySafe (Some (priority_str v)) = v.
Proof. destruct v; reflexivity. Qed.

(** C10. The priority of the body never makes the creation fail: a body
    that is accepted with one priority is accepted with any other, or
    with none. The row gets priority normal when the priority is absent
    or is not one of the four literals, and the priority given when it
    is one of them. *)
Theorem create_priority_default user body now dbNow (db : Db) r db' :
  post_request user body now dbNow db = (res_json 201 r, db') ->
  forall p, exists r',
    post_request user (with_priority body p) now dbNow db
    = (res_json 201 r', mkDb (<[serial db + 1 := r']> (rows db)) (serial db + 1))
    /\ status r' = in_queue
    /\ inQueueAt r' = Some now
    /\ (p = None \/ (exists s, p = Some s /\ s ∉ priority_str <$> allowedPriorities) ->
        priority r' = normal)
    /\ (forall v, p = Some (priority_str v) -> priority r' = v).
Proof.
  unfold post_request. intros H p. cbn [with_priority b_unit b_category
    b_description b_phone b_priority b_accessInstructions b_preferredWindow1
    b_preferredWindow2].
  destruct (ensureTenant user) as [u|]; [|discriminate].
  destruct (truthy (b_unit body)) as [unit|]; [|discriminate].
  destruct (truthy (b_category body)) as [cat|]; [|discriminate].
  destruct (truthy (b_description body)) as [descr|]; [|discriminate].
  destruct (truthy (b_phone body)) as [ph|]; [|discriminate].
  destruct (truthy (b_preferredWindow1 body)) as [s1|]; [|discriminate].
  destruct (negb (includes allowedWindowOptions s1)); [discriminate|].
  destruct (truthy (b_preferredWindow2 body)) as [s2|].
  - destruct (negb (includes allowedWindowOptions s2)); [discriminate|].
    destruct (String.eqb s1 s2); [discriminate|].
    eexists. repeat apply conj; try reflexivity.
    + apply prioritySafe_absent.
    + intros v ->. apply prioritySafe_allowed.
  - eexists. repeat apply conj; try reflexivity.
    + apply prioritySafe_absent.
    + intros v ->. apply prioritySafe_allowed.
Qed.

(** The sample body is accepted with priority high; sent with a priority
    that is not in the list, it is stored with priority normal. *)
Lemma create_priority_default_witness :
  exists r',
    post_request tenant7 (sample_body (Some "urgent")) 100 101 empty_db
    = (res_json 201 r', mkDb (<[1 := r']> ∅) 1)
    /\ status r' = in_queue
    /\ inQueueAt r' = Some 100
    /\ (Some "urgent" = None
        \/ (exists s, Some "urgent" = Some s
                      /\ s ∉ priority_str <$> allowedPriorities) ->
        priority r' = normal)
    /\ (forall v, Some "urgent" = Some (priority_str v) -> priority r' = v).
Proof.
  exact (create_priority_default tenant7 (sample_body (Some "high")) 100 101
           empty_db row_created (table_of row_created) eq_refl (Some "urgent")).
Defined.

(** ** From one call to the rows of the table *)

Lemma ticks_mono c clk clk' : ticks c clk = Some clk' -> clk <= clk'.
Proof.
  destruct c; cbn; repeat case_match; intros [= <-]; lia.
Qed.

Lemma ticks_now_close user id now clk clk' :
  ticks (PatchClose user id now) clk = Some clk' -> clk <= now /\ clk' = now.
Proof. cbn. case_match; intros [= <-]; lia. Qed.

Lemma ticks_now_status user id st now clk clk' :
  ticks (PatchStatus user id st now) clk = Some clk' -> clk <= now /\ clk' = now.
Proof. cbn. case_match; intros [= <-]; lia. Qed.

Lemma ticks_now_create user body now dbNow clk clk' :
  ticks (PostRequest user body now dbNow) clk = Some clk' ->
  clk <= now /\ now <= clk'.
Proof. cbn. case_match; intros [= <-]; lia. Qed.

(** A call leaves the rows as they are or writes one row, as [row_step]
    says. *)
Lemma handle_rows c (db : Db) :
  rows (handle c db).2 = rows db
  \/ exists k r', rows (handle c db).2 = <[k := r']> (rows db)
                  /\ row_step c (rows db !! k) r'.
Proof.
  destruct c as [user body now dbNow|user id now|user id st now|user id p];
    cbn [handle].
  - unfold post_request.
    repeat (case_match; try (left; reflexivity)).
    all: match goal with H : create _ _ _ _ _ _ _ _ _ _ _ _ = _ |- _ =>
           unfold create in H; injection H as <- <- end.
    all: right; do 2 eexists; split; [reflexivity|].
    all: constructor; [reflexivity|intros []; reflexivity].
  - unfold patch_close, findUnique.
    destruct (ensureTenant user) as [u|]; [|left; reflexivity].
    destruct (rows db !! id) as [r|] eqn:Hf; [|left; reflexivity].
    destruct (negb _); [left; reflexivity|].
    case_bool_decide as Hst; [left; reflexivity|].
    rewrite (update_found _ _ _ _ Hf). right. do 2 eexists.
    split; [reflexivity|]. rewrite Hf. constructor. assumption.
  - unfold patch_status, findUnique.
    destruct (ensureManager user) as [u|]; [|left; reflexivity].
    destruct (mbind decode_status (truthy st)) as [requested|];
      [|left; reflexivity].
    destruct (rows db !! id) as [r|] eqn:Hf; [|left; reflexivity].
    fold (stage_index requested). fold (stage_index (status r)).
    destruct (negb (bool_decide _) && _) eqn:Hord; [left; reflexivity|].
    rewrite (update_found _ _ _ _ Hf). right. do 2 eexists.
    split; [reflexivity|]. rewrite Hf. constructor.
    apply andb_false_iff in Hord as [H|H]; apply negb_false_iff in H.
    + left. apply bool_decide_eq_true in H. assumption.
    + right. apply Z.eqb_eq in H. assumption.
  - unfold patch_priority.
    destruct (ensureManager user) as [u|]; [|left; reflexivity].
    destruct (mbind decode_priority (truthy p)) as [v|]; [|left; reflexivity].
    destruct (rows db !! id) as [r|] eqn:Hf.
    + rewrite (update_found _ _ _ _ Hf). right. do 2 eexists.
      split; [reflexivity|]. rewrite Hf. constructor.
    + unfold update. rewrite Hf. left. reflexivity.
Qed.

(** Induction over the reachable tables, row by row. *)
Lemma reachable_rows allowed (P : Z -> Request -> Prop) :
  (forall clk clk' r, clk <= clk' -> P clk r -> P clk' r) ->
  (forall c clk clk' old r',
      allowed c = true -> ticks c clk = Some clk' -> row_step c old r' ->
      (forall r, old = Some r -> P clk r) -> P clk' r') ->
  forall w, reachable allowed w ->
  forall id r, rows (db w) !! id = Some r -> P (clock w) r.
Proof.
  intros Hmono Hstep w Hw. induction Hw as [clk|w c clk' Hw IH Hc Ht].
  - intros id r H. cbn in H. rewrite lookup_empty in H. discriminate.
  - intros id r. cbn [db clock].
    destruct (handle_rows c (db w)) as [->|(k & r' & -> & Hrs)].
    + intros H. eapply Hmono; [eapply ticks_mono; eassumption|].
      eapply IH; eassumption.
    + rewrite lookup_insert. case_decide as Hk.
      * intros [= <-]. eapply Hstep; try eassumption.
        intros r0 H0. eapply IH; eassumption.
      * intros H. eapply Hmono; [eapply ticks_mono; eassumption|].
        eapply IH; eassumption.
Qed.

(** ** The shape of the rows of a reachable table *)

Lemma stamped_is_Some r r' x now s :
  stamped r r' x now -> is_Some (stage_at s r) -> is_Some (stage_at s r').
Proof.
  intros H Hs. destruct (H s) as [->|(_ & _ & ->)]; eauto.
Qed.

Lemma stamped_other r r' x now s :
  stamped r r' x now -> s <> x -> stage_at s r' = stage_at s r.
Proof.
  intros H Hs. destruct (H s) as [?|(? & _)]; [assumption|contradiction].
Qed.

(** Stamping the current instant on an unset stage beyond which nothing
    is set keeps the timestamps in order and below the clock. *)
Lemma stamped_order clk now r r' x :
  non_decreasing r -> not_after clk r -> clk <= now ->
  stamped r r' x now ->
  (stage_at x r = None ->
   forall s, stage_index x < stage_index s -> stage_at s r = None) ->
  non_decreasing r' /\ not_after now r'.
Proof.
  intros Hnd Hna Hclk Hst Hx. split.
  - intros s1 s2 t1 t2 Hlt H1 H2.
    destruct (Hst s1) as [E1|(-> & N1 & E1)];
      destruct (Hst s2) as [E2|(-> & N2 & E2)]; rewrite ?E1, ?E2 in *.
    + eapply Hnd; eassumption.
    + injection H2 as <-. apply Hna in H1. lia.
    + rewrite (Hx N1 s2 Hlt) in H2. discriminate.
    + lia.
  - intros s t H. destruct (Hst s) as [E|(-> & _ & E)]; rewrite E in H.
    + apply Hna in H. lia.
    + injection H as <-. lia.
Qed.

Lemma status_step_stamped r requested now :
  is_Some (inQueueAt r) ->
  stamped r (apply_update r (status_data r requested now)) requested now.
Proof.
  intros [t0 H0] s. rewrite status_data_stage.
  case_bool_decide as E.
  - subst s. destruct (stage_at requested r); [left|right]; auto.
  - case_bool_decide as E0; [|left; reflexivity].
    subst s. left. cbn [stage_at]. rewrite H0. reflexivity.
Qed.

Lemma close_step_stamped r now :
  (forall s, s <> completed -> stage_index s <= stage_index (status r) ->
             is_Some (stage_at s r)) ->
  stamped r (apply_update r (close_data r now)) completed now.
Proof.
  intros Hset s. rewrite close_data_stage.
  case_bool_decide as E.
  - subst s. cbn [stage_at]. destruct (completedAt r); [left|right]; auto.
  - case_bool_decide as E0.
    + subst s. left. destruct (Hset in_queue) as [t Ht]; [discriminate| |].
      * pose proof (stage_index_range (status r)).
        change (stage_index in_queue) with 0. lia.
      * cbn [stage_at] in *. rewrite Ht. reflexivity.
    + destruct (Z.leb_spec (stage_index s) (stage_index (status r))) as [Hle|_];
        [|left; reflexivity].
      destruct (Hset s E Hle) as [t Ht]. rewrite Ht. left. reflexivity.
Qed.

Lemma priority_step_same r v :
  status (apply_update r (priority_data v)) = status r
  /\ forall s, stage_at s (apply_update r (priority_data v)) = stage_at s r.
Proof. split; [reflexivity|]. intros []; reflexivity. Qed.

Lemma stage_index_completed s : stage_index s = 4 -> s = completed.
Proof. intros H. apply stage_index_inj. exact H. Qed.

Lemma stage_index_in_queue s : stage_index s = 0 -> s = in_queue.
Proof. intros H. apply stage_index_inj. exact H. Qed.

(** Every call keeps [tracked]. *)
Lemma tracked_step c clk clk' old r' :
  ticks c clk = Some clk' -> row_step c old r' ->
  (forall r, old = Some r -> tracked clk r) -> tracked clk' r'.
Proof.
  intros Ht Hrs Hold.
  destruct Hrs as [user body now dbNow old r' Hs Hst
                  |user id now r Hnc
                  |user id st now r requested Hreq
                  |user id p r v].
  - (* creation *)
    apply ticks_now_create in Ht as [_ Hnow].
    exists in_queue. repeat apply conj.
    + intros s Hle. pose proof (stage_index_range s).
      change (stage_index in_queue) with 0 in Hle.
      rewrite (stage_index_in_queue s) by lia. rewrite Hst. cbn. eauto.
    + intros s Hlt _. rewrite Hst. rewrite bool_decide_eq_false_2; [reflexivity|].
      intros ->. lia.
    + left. split; [assumption|]. intros _. apply (Hst completed).
    + intros s1 s2 t1 t2 Hlt H1 H2. rewrite Hst in H1, H2.
      repeat case_bool_decide; simplify_eq. lia.
    + intros s t H. rewrite Hst in H. case_bool_decide; simplify_eq. lia.
  - (* close *)
    apply ticks_now_close in Ht as [Hclk ->].
    destruct (Hold r eq_refl) as (h & Hset & Hunset & Hshape & Hnd & Hna).
    destruct Hshape as [[Hs Hc]|[Hs _]]; [|contradiction].
    subst h.
    assert (stamped r (apply_update r (close_data r now)) completed now) as Hst
      by (apply close_step_stamped; intros s _ Hle; apply Hset; assumption).
    destruct (stamped_order clk now r _ completed Hnd Hna Hclk Hst) as [Hnd' Hna'].
    { intros _ s Hlt. pose proof (stage_index_range s).
      change (stage_index completed) with 4 in Hlt. lia. }
    exists (status r). repeat apply conj; try assumption.
    + intros s Hle. eapply stamped_is_Some; [eassumption|]. apply Hset, Hle.
    + intros s Hlt Hne. rewrite (stamped_other _ _ _ _ _ Hst Hne).
      apply Hunset; assumption.
    + right. split; [apply close_data_frame|].
      exists (completedAt r ?? now). apply (close_data_stage r now completed).
  - (* status *)
    apply ticks_now_status in Ht as [Hclk ->].
    destruct (Hold r eq_refl) as (h & Hset & Hunset & Hshape & Hnd & Hna).
    assert (is_Some (inQueueAt r)) as H0.
    { apply (Hset in_queue). pose proof (stage_index_range h).
      change (stage_index in_queue) with 0. lia. }
    pose proof (status_step_stamped r requested now H0) as Hst.
    destruct (status_data_frame r requested now) as (Hs' & _).
    assert (forall s, stage_index requested < stage_index s ->
                      stage_at requested r = None -> stage_at s r = None) as Hbeyond.
    { intros s Hlt Hnone.
      destruct Hshape as [[Hs Hc]|[Hs [t Hc]]].
      - subst h. destruct Hreq as [->|Hnext].
        + destruct (Hset (status r)) as [t E]; [lia|]. congruence.
        + destruct (decide (s = completed)) as [->|Hne].
          * apply Hc. intros E. rewrite E in *. pose proof (stage_index_range requested).
            change (stage_index completed) with 4 in *. lia.
          * apply Hunset; [lia|assumption].
      - destruct Hreq as [->|Hnext].
        + rewrite Hs in Hnone. cbn in Hnone. congruence.
        + rewrite Hs in Hnext. pose proof (stage_index_range requested).
          change (stage_index completed) with 4 in Hnext. lia. }
    destruct (stamped_order clk now r _ requested Hnd Hna Hclk Hst) as [Hnd' Hna'].
    { intros Hnone s Hlt. apply Hbeyond; assumption. }
    destruct Hshape as [[Hs Hc]|[Hs Hc]].
    + subst h. exists requested. repeat apply conj; try assumption.
      * intros s Hle.
        destruct (decide (s = requested)) as [->|Hne].
        -- rewrite status_data_stage, bool_decide_eq_true_2 by reflexivity. eauto.
        -- eapply stamped_is_Some; [eassumption|]. apply Hset.
           destruct Hreq as [->|Hnext]; [assumption|].
           assert (stage_index s <> stage_index requested)
             by (intros E; apply Hne, stage_index_inj, E).
           lia.
      * intros s Hlt Hne.
        rewrite (stamped_other _ _ _ _ s Hst) by (intros ->; lia).
        apply Hunset; [|assumption]. destruct Hreq as [->|Hnext]; lia.
      * left. split; [assumption|]. intros Hne.
        change (completedAt ?x) with (stage_at completed x).
        rewrite (stamped_other _ _ _ _ completed Hst) by congruence.
        apply Hc. intros E. rewrite E in *. destruct Hreq as [->|Hnext].
        -- contradiction.
        -- pose proof (stage_index_range requested).
           change (stage_index completed) with 4 in *. lia.
    + assert (requested = completed) as ->.
      { destruct Hreq as [->|Hnext]; [assumption|].
        rewrite Hs in Hnext. pose proof (stage_index_range requested).
        change (stage_index completed) with 4 in Hnext. lia. }
      exists h. repeat apply conj; try assumption.
      * intros s Hle. eapply stamped_is_Some; [eassumption|]. apply Hset, Hle.
      * intros s Hlt Hne. rewrite (stamped_other _ _ _ _ _ Hst Hne).
        apply Hunset; assumption.
      * right. split; [assumption|].
        eapply (stamped_is_Some _ _ _ _ completed); eassumption.
  - (* priority *)
    injection Ht as <-.
    destruct (Hold r eq_refl) as (h & Hset & Hunset & Hshape & Hnd & Hna).
    destruct (priority_step_same r v) as [Hs Hst].
    exists h. repeat apply conj.
    + intros s Hle. rewrite Hst. apply Hset, Hle.
    + intros s Hlt Hne. rewrite Hst. apply Hunset; assumption.
    + rewrite Hs. change (completedAt ?x) with (stage_at completed x).
      rewrite Hst. exact Hshape.
    + intros s1 s2 t1 t2. rewrite !Hst. apply Hnd.
    + intros s t. rewrite Hst. apply Hna.
Qed.

Lemma tracked_mono clk clk' r : clk <= clk' -> tracked clk r -> tracked clk' r.
Proof.
  intros Hle (h & Hset & Hunset & Hshape & Hnd & Hna).
  exists h. repeat apply conj; try assumption.
  intros s t H. apply Hna in H. lia.
Qed.

Lemma reachable_tracked w :
  reachable any_call w ->
  forall id r, rows (db w) !! id = Some r -> tracked (clock w) r.
Proof.
  apply (reachable_rows any_call tracked).
  - apply tracked_mono.
  - intros c clk clk' old r' _ Ht Hrs Hold. eapply tracked_step; eassumption.
Qed.

Lemma on_track_step c old r' :
  not_close c = true -> row_step c old r' ->
  (forall r, old = Some r -> on_track r) -> on_track r'.
Proof.
  intros Hc Hrs Hold.
  destruct Hrs as [user body now dbNow old r' Hs Hst
                  |user id now r Hnc
                  |user id st now r requested Hreq
                  |user id p r v].
  - intros s. rewrite Hs, Hst. change (stage_index in_queue) with 0.
    pose proof (stage_index_range s). case_bool_decide as E.
    + subst s. split; [intros _; reflexivity|eauto].
    + split; [intros [? [=]]|].
      intros Hle. exfalso. apply E, stage_index_in_queue. lia.
  - discriminate Hc.
  - specialize (Hold r eq_refl). intros s.
    destruct (status_data_frame r requested now) as (-> & _).
    rewrite status_data_stage.
    pose proof (stage_index_range s). pose proof (stage_index_range (status r)).
    case_bool_decide as E; [subst s; split; [lia|eauto]|].
    assert (stage_index s <> stage_index requested)
      by (intros Ei; apply E, stage_index_inj, Ei).
    case_bool_decide as E0.
    + subst s. change (stage_index in_queue) with 0 in *.
      pose proof (stage_index_range requested). split; [lia|eauto].
    + rewrite (Hold s). destruct Hreq as [->|Hnext]; lia.
  - specialize (Hold r eq_refl). intros s.
    destruct (priority_step_same r v) as [-> ->]. apply Hold.
Qed.

Lemma on_track_I1 r : on_track r -> I1 r.
Proof.
  intros H. split.
  - intros s Hle. apply H, Hle.
  - intros s Hnext. destruct (stage_at s r) as [t|] eqn:E; [|reflexivity].
    assert (is_Some (stage_at s r)) as Hs by eauto.
    apply H in Hs. lia.
Qed.

Lemma tracked_I1_or_closed_early clk r : tracked clk r -> I1 r \/ closed_early r.
Proof.
  intros (h & Hset & Hunset & Hshape & _).
  pose proof (stage_index_range h) as Hh.
  destruct Hshape as [[Hs Hc]|[Hs Hc]].
  - left. subst h. split; [exact Hset|].
    intros s Hnext. destruct (decide (s = completed)) as [->|Hne].
    + apply Hc. intros E. rewrite E in Hnext.
      change (stage_index completed) with 4 in Hnext. lia.
    + apply Hunset; [lia|assumption].
  - destruct (Z.lt_ge_cases (stage_index h) (stage_index implementing_actions))
      as [Hlt|Hge].
    + right. split; [assumption|]. split; [assumption|].
      exists h. split; [assumption|]. intros s Hne. split.
      * intros [t Ht]. destruct (Z.le_gt_cases (stage_index s) (stage_index h))
          as [Hle|Hgt]; [assumption|].
        rewrite (Hunset s) in Ht by (lia || assumption). discriminate.
      * apply Hset.
    + left. unfold I1. rewrite Hs. split.
      * intros s _. destruct (decide (s = completed)) as [->|Hne]; [assumption|].
        apply Hset. pose proof (stage_index_range s).
        assert (stage_index s <> 4) by (intros E; apply Hne, stage_index_completed, E).
        change (stage_index implementing_actions) with 3 in Hge. lia.
      * intros s Hnext. pose proof (stage_index_range s).
        change (stage_index completed) with 4 in Hnext. lia.
Qed.

Lemma row_step_keeps c r r' s t :
  is_create c = false -> row_step c (Some r) r' ->
  stage_at s r = Some t -> stage_at s r' = Some t.
Proof.
  intros Hc Hrs Hst. inversion Hrs; subst.
  - discriminate Hc.
  - rewrite close_data_stage.
    case_bool_decide; [subst s; cbn [stage_at] in *; rewrite Hst; reflexivity|].
    case_bool_decide; [subst s; cbn [stage_at] in *; rewrite Hst; reflexivity|].
    rewrite Hst. destruct (_ <=? _); reflexivity.
  - rewrite status_data_stage.
    case_bool_decide; [rewrite Hst; reflexivity|].
    case_bool_decide; [subst s; cbn [stage_at] in *; rewrite Hst; reflexivity|].
    assumption.
  - rewrite (proj2 (priority_step_same r v)). assumption.
Qed.

Lemma handle_keeps c (db : Db) id r s t :
  is_create c = false ->
  rows db !! id = Some r -> stage_at s r = Some t ->
  exists r', rows (handle c db).2 !! id = Some r' /\ stage_at s r' = Some t.
Proof.
  intros Hc Hf Hst.
  destruct (handle_rows c db) as [->|(k & r' & -> & Hrs)]; [eauto|].
  rewrite lookup_insert. case_decide as Hk; [|eauto].
  subst k. rewrite Hf in Hrs. eexists. split; [reflexivity|].
  eapply row_step_keeps; eassumption.
Qed.

(** ** The invariants of the specification *)

(** C2, as the code has it. I1 holds in every table reached by
    creations, status calls and priority calls. A close does not keep
    it: in a table reached with closes as well, a request satisfies I1
    or was closed early, that is, it is completed with [completedAt]
    set while the timestamps of the other stages stop at the stage it
    had reached, before [implementing_actions]. *)
Theorem I1_without_early_closure :
  (forall w, reachable not_close w ->
     forall id r, rows (db w) !! id = Some r -> I1 r)
  /\ (forall w, reachable any_call w ->
        forall id r, rows (db w) !! id = Some r -> I1 r \/ closed_early r).
Proof.
  split.
  - intros w Hw id r Hr. apply on_track_I1.
    revert w Hw id r Hr.
    apply (reachable_rows not_close (fun _ => on_track)).
    + intros _ _ r _ H. exact H.
    + intros c clk clk' old r' Hc _ Hrs Hold. eapply on_track_step; eassumption.
  - intros w Hw id r Hr. eapply tracked_I1_or_closed_early.
    eapply reachable_tracked; eassumption.
Qed.

Lemma reachable_world_viewed : reachable not_close world_viewed.
Proof.
  unfold world_viewed, world_created, after.
  repeat (eapply reach_step; [|reflexivity|reflexivity]).
  apply reach_init.
Qed.

Lemma reachable_world_closed : reachable any_call world_closed.
Proof.
  unfold world_closed, world_viewed, world_created, after.
  repeat (eapply reach_step; [|reflexivity|reflexivity]).
  apply reach_init.
Qed.

Lemma I1_without_early_closure_witness :
  I1 row_created_viewed /\ (I1 row_closed \/ closed_early row_closed).
Proof.
  split.
  - apply (proj1 I1_without_early_closure world_viewed
             reachable_world_viewed 1 row_created_viewed).
    reflexivity.
  - apply (proj2 I1_without_early_closure world_closed
             reachable_world_closed 1 row_closed).
    reflexivity.
Defined.

(** C2 as stated fails: a request created at 100 and closed by its
    tenant at 300 is completed, yet [viewedAt] is unset. *)
Lemma I1_early_closure_counterexample :
  ~ (forall w, reachable any_call w ->
       forall id r, rows (db w) !! id = Some r -> I1 r).
Proof.
  intros H.
  pose (w := after (PatchClose tenant7 1 300) 300 world_created).
  assert (reachable any_call w) as Hw.
  { unfold w, world_created, after.
    repeat (eapply reach_step; [|reflexivity|reflexivity]).
    apply reach_init. }
  destruct (rows (db w) !! 1) as [r|] eqn:Hr; [|vm_compute in Hr; discriminate].
  pose proof (H w Hw 1 r Hr) as [Hset _].
  vm_compute in Hr. injection Hr as <-.
  destruct (Hset viewed) as [t Ht]; [vm_compute; discriminate|].
  discriminate Ht.
Qed.

(** C5. With a clock that never runs backwards, in every table reached
    by creations, status calls, closes and priority calls the timestamps
    of a request that are set do not decrease along the pipeline. *)
Theorem timestamps_non_decreasing w id r :
  reachable any_call w ->
  rows (db w) !! id = Some r ->
  non_decreasing r.
Proof.
  intros Hw Hr.
  destruct (reachable_tracked w Hw id r Hr) as (_ & _ & _ & _ & Hnd & _).
  exact Hnd.
Qed.

Lemma timestamps_non_decreasing_witness :
  rows (db world_closed) !! 1 = Some row_closed /\ non_decreasing row_closed.
Proof.
  split.
  - reflexivity.
  - apply (timestamps_non_decreasing world_closed 1 row_closed
             reachable_world_closed).
    reflexivity.
Defined.

(** C6. A stage timestamp that is set keeps its value through every
    later status call and close (and priority call), accepted or
    rejected. *)
Theorem timestamps_immutable calls (db : Db) id r s t :
  Forall (fun c => is_create c = false) calls ->
  rows db !! id = Some r ->
  stage_at s r = Some t ->
  exists r', rows (run calls db) !! id = Some r' /\ stage_at s r' = Some t.
Proof.
  intros Hcalls. revert db r.
  induction Hcalls as [|c calls Hc _ IH]; intros db r Hr Hst.
  - exists r. split; assumption.
  - destruct (handle_keeps c db id r s t Hc Hr Hst) as (r1 & Hr1 & Hst1).
    apply (IH _ r1 Hr1 Hst1).
Qed.

Lemma timestamps_immutable_witness :
  exists r',
    rows (run [PatchStatus manager1 1 (Some "viewed") 200;
               PatchStatus manager1 1 (Some "in_queue") 250;
               PatchClose tenant7 1 300] (table_of row_new)) !! 1 = Some r'
    /\ inQueueAt r' = Some 100.
Proof.
  apply (timestamps_immutable _ (table_of row_new) 1 row_new in_queue 100).
  - repeat constructor.
  - reflexivity.
  - reflexivity.
Defined.

(** ** Who may call what *)

Lemma ensureTenant_None user :
  (forall u, user = Some u -> user_role u <> "tenant") ->
  ensureTenant user = None.
Proof.
  intros H. unfold ensureTenant. destruct user as [u|]; [|reflexivity].
  destruct (String.eqb_spec (user_role u) "tenant") as [E|_]; [|reflexivity].
  destruct (H u eq_refl E).
Qed.

Lemma ensureManager_None user :
  (forall u, user = Some u ->
     user_role u <> "manager" /\ user_role u <> "admin") ->
  ensureManager user = None.
Proof.
  intros H. unfold ensureManager. destruct user as [u|]; [|reflexivity].
  destruct (H u eq_refl) as [Hm Ha].
  destruct (String.eqb_spec (user_role u) "manager") as [E|_]; [contradiction|].
  destruct (String.eqb_spec (user_role u) "admin") as [E|_]; [contradiction|].
  reflexivity.
Qed.

(** X1. The routes of the tenant (create, close, list) answer 403 to a
    caller who is absent or whose role is not tenant, a manager and an
    admin included, and leave the table as it was. *)
Theorem tenant_routes_forbidden user body id now dbNow (db : Db) :
  (forall u, user = Some u -> user_role u <> "tenant") ->
  post_request user body now dbNow db = (only_tenants, db)
  /\ patch_close user id now db = (only_tenants, db)
  /\ get_mine user db = list_message 403 "Only tenants can perform this action"
  /\ res_code only_tenants = 403.
Proof.
  intros H. apply ensureTenant_None in H.
  unfold post_request, patch_close, get_mine. rewrite H.
  repeat apply conj; reflexivity.
Qed.

Lemma tenant_routes_forbidden_witness :
  post_request manager1 (sample_body (Some "high")) 100 101 (table_of row_new)
  = (only_tenants, table_of row_new)
  /\ patch_close manager1 1 100 (table_of row_new)
     = (only_tenants, table_of row_new)
  /\ get_mine manager1 (table_of row_new)
     = list_message 403 "Only tenants can perform this action"
  /\ res_code only_tenants = 403.
Proof.
  apply (tenant_routes_forbidden manager1 (sample_body (Some "high")) 1 100 101
           (table_of row_new)).
  intros u [= <-]. discriminate.
Defined.

(** X2. The routes of the manager (status, priority) answer 403 to a
    caller who is absent or whose role is neither manager nor admin: a
    tenant cannot move a request along the pipeline or change its
    priority through them. The table is left as it was. *)
Theorem manager_routes_forbidden user id st p now (db : Db) :
  (forall u, user = Some u ->
     user_role u <> "manager" /\ user_role u <> "admin") ->
  patch_status user id st now db = (only_managers, db)
  /\ patch_priority user id p db = (only_managers, db)
  /\ res_code only_managers = 403.
Proof.
  intros H. apply ensureManager_None in H.
  unfold patch_status, patch_priority. rewrite H.
  repeat apply conj; reflexivity.
Qed.

Lemma manager_routes_forbidden_witness :
  patch_status tenant7 1 (Some "viewed") 200 (table_of row_new)
  = (only_managers, table_of row_new)
  /\ patch_priority tenant7 1 (Some "emergency") (table_of row_new)
     = (only_managers, table_of row_new)
  /\ res_code only_managers = 403.
Proof.
  apply (manager_routes_forbidden tenant7 1 (Some "viewed") (Some "emergency")
           200 (table_of row_new)).
  intros u [= <-]. split; discriminate.
Defined.

(** ** The answers of the routes *)

Lemma truthy_Some o s : truthy o = Some s -> o = Some s /\ s <> "".
Proof.
  unfold truthy. destruct o as [x|]; [|discriminate].
  destruct (String.eqb_spec x "") as [->|Hne]; [discriminate|].
  intros [= <-]. auto.
Qed.

(** X3. A status call by a manager whose body has no status, an empty
    one or a string that is not one of the five literals is answered
    with the 400 "Invalid status" whether or not the id has a row, and
    the table is left as it was. *)
Theorem status_invalid_literal user u id st now (db : Db) :
  ensureManager user = Some u ->
  (forall s, st <> Some (status_str s)) ->
  patch_status user id st now db = (invalid_status, db)
  /\ res_code invalid_status = 400.
Proof.
  intros Hu Hlit. split; [|reflexivity]. unfold patch_status. rewrite Hu.
  destruct (truthy st) as [x|] eqn:Ht; [|reflexivity].
  apply truthy_Some in Ht as [-> _]. cbn [mbind option_bind].
  destruct (decode_status x) as [s|] eqn:Hd; [|reflexivity].
  apply decode_status_Some in Hd. subst x. destruct (Hlit s eq_refl).
Qed.

Lemma status_invalid_literal_witness :
  patch_status manager1 99 (Some "done") 200 (table_of row_new)
  = (invalid_status, table_of row_new)
  /\ res_code invalid_status = 400.
Proof.
  apply (status_invalid_literal manager1 (mkUser 1 "manager") 99 (Some "done")
           200 (table_of row_new)).
  - reflexivity.
  - intros []; discriminate.
Defined.



(** ** The priority route *)

Lemma patch_priority_found user u id v (db : Db) r :
  ensureManager user = Some u ->
  findUnique db id = Some r ->
  patch_priority user id (Some (priority_str v)) db
  = (res_json 200 (apply_update r (priority_data v)),
     mkDb (<[id := apply_update r (priority_data v)]> (rows db)) (serial db)).
Proof.
  intros Hu Hf. unfold patch_priority.
  rewrite Hu, truthy_priority_str. cbn [mbind option_bind].
  rewrite decode_priority_str, (update_found _ _ _ _ Hf). reflexivity.
Qed.

(** X5. A priority call by a manager with one of the four literals, on
    an id that has a row, succeeds at every status, completed included:
    the priority becomes the one given and [lastUpdatedByRole] manager,
    and the status, the five stage timestamps, the id, the owner, the
    creation instant, the unit, category, description, phone, visit
    windows and access instructions are left as they were. (The column
    [updatedAt], which the ORM rewrites at every update, is outside the
    rows of this development.) *)
Theorem priority_only_priority user u id v (db : Db) r :
  ensureManager user = Some u ->
  findUnique db id = Some r ->
  exists r',
    patch_priority user id (Some (priority_str v)) db
    = (res_json 200 r', mkDb (<[id := r']> (rows db)) (serial db))
    /\ priority r' = v
    /\ lastUpdatedByRole r' = Some "manager"
    /\ status r' = status r
    /\ same_stamps r r'
    /\ same_content r r'.
Proof.
  intros Hu Hf. exists (apply_update r (priority_data v)).
  rewrite (patch_priority_found _ _ _ _ _ _ Hu Hf).
  repeat apply conj; try reflexivity.
  intros []; reflexivity.
Qed.

Lemma priority_only_priority_witness :
  exists r',
    patch_priority manager1 1 (Some "emergency") (table_of row_completed)
    = (res_json 200 r', mkDb (<[1 := r']> (rows (table_of row_completed))) 1)
    /\ priority r' = emergency
    /\ lastUpdatedByRole r' = Some "manager"
    /\ status r' = completed
    /\ same_stamps row_completed r'
    /\ same_content row_completed r'.
Proof.
  apply (priority_only_priority manager1 (mkUser 1 "manager") 1 emergency
           (table_of row_completed) row_completed); reflexivity.
Defined.

(** X6. Unlike the creation, the priority route rejects a priority that
    is absent or not one of the four literals with a 400; and for an id
    that has no row it answers 500 "Failed to update priority", not 404.
    The table is left as it was in both cases. *)
Theorem priority_rejections user u id p (db : Db) :
  ensureManager user = Some u ->
  ((forall v, p <> Some (priority_str v)) ->
   patch_priority user id p db = (invalid_priority, db))
  /\ (forall v, p = Some (priority_str v) -> findUnique db id = None ->
      patch_priority user id p db = (priority_failed, db))
  /\ res_code invalid_priority = 400
  /\ res_code priority_failed = 500.
Proof.
  intros Hu. repeat apply conj; try reflexivity.
  - intros Hlit. unfold patch_priority. rewrite Hu.
    destruct (truthy p) as [x|] eqn:Ht; [|reflexivity].
    apply truthy_Some in Ht as [-> _]. cbn [mbind option_bind].
    destruct (decode_priority x) as [v|] eqn:Hd; [|reflexivity].
    apply decode_priority_Some in Hd. subst x. destruct (Hlit v eq_refl).
  - intros v -> Hf. unfold patch_priority.
    rewrite Hu, truthy_priority_str. cbn [mbind option_bind].
    rewrite decode_priority_str. unfold update, findUnique in *. rewrite Hf.
    reflexivity.
Qed.

Lemma priority_rejections_witness :
  patch_priority manager1 1 (Some "urgent") (table_of row_new)
  = (invalid_priority, table_of row_new)
  /\ patch_priority manager1 2 (Some "high") (table_of row_new)
     = (priority_failed, table_of row_new).
Proof.
  destruct (priority_rejections manager1 (mkUser 1 "manager") 1 (Some "urgent")
              (table_of row_new) eq_refl) as (H1 & _).
  destruct (priority_rejections manager1 (mkUser 1 "manager") 2 (Some "high")
              (table_of row_new) eq_refl) as (_ & H2 & _).
  split.
  - apply H1. intros []; discriminate.
  - apply (H2 high); reflexivity.
Defined.

(** ** What a creation stores *)

Lemma includes_true {A} `{EqDecision A} (l : list A) x :
  negb (includes l x) = false -> x ∈ l.
Proof.
  unfold includes. intros H. apply negb_false_iff in H.
  apply bool_decide_eq_true in H. exact H.
Qed.

(** X7. Whenever a creation is answered with a 201, the caller is a
    tenant and the row of the answer is what was stored, under the next
    id of the sequence and with nothing else in the table changed: it
    belongs to the caller, is in the queue with [inQueueAt] the instant
    of the handler and no other stage timestamp, carries the unit,
    category, description and phone of the body, none of them empty, a
    first visit window of the list and, if any, a second one of the
    list that differs from the first. *)
Theorem accepted_creation_row user body now dbNow (db : Db) r db' :
  post_request user body now dbNow db = (res_json 201 r, db') ->
  exists u,
    user = Some u /\ user_role u = "tenant"
    /\ db' = mkDb (<[serial db + 1 := r]> (rows db)) (serial db + 1)
    /\ reqId r = serial db + 1
    /\ tenantId r = user_id u
    /\ status r = in_queue
    /\ lastUpdatedByRole r = Some "tenant"
    /\ createdAt r = Some dbNow
    /\ (forall s, stage_at s r
                  = if bool_decide (s = in_queue) then Some now else None)
    /\ b_unit body = Some (unit_ r)
    /\ b_category body = Some (category r)
    /\ b_description body = Some (description r)
    /\ b_phone body = Some (phone r)
    /\ b_preferredWindow1 body = preferredWindow1 r
    /\ well_formed r.
Proof.
  unfold post_request. intros H.
  destruct (ensureTenant user) as [u|] eqn:Hu; [|discriminate].
  apply ensureTenant_Some in Hu as [-> Hrole].
  destruct (truthy (b_unit body)) as [unit|] eqn:H1; [|discriminate].
  destruct (truthy (b_category body)) as [cat|] eqn:H2; [|discriminate].
  destruct (truthy (b_description body)) as [descr|] eqn:H3; [|discriminate].
  destruct (truthy (b_phone body)) as [ph|] eqn:H4; [|discriminate].
  destruct (truthy (b_preferredWindow1 body)) as [s1|] eqn:H5; [|discriminate].
  destruct (negb (includes allowedWindowOptions s1)) eqn:Hw1; [discriminate|].
  apply includes_true in Hw1.
  apply truthy_Some in H1 as [H1 N1], H2 as [H2 N2], H3 as [H3 N3],
    H4 as [H4 N4], H5 as [H5 _].
  assert (truthy (b_accessInstructions body) <> Some "") as Hacc.
  { intros E. apply truthy_Some in E as [_ E]. congruence. }
  exists u.
  destruct (truthy (b_preferredWindow2 body)) as [s2|] eqn:H6.
  - destruct (negb (includes allowedWindowOptions s2)) eqn:Hw2; [discriminate|].
    apply includes_true in Hw2.
    destruct (String.eqb_spec s1 s2) as [E|Hne]; [discriminate|].
    unfold create in H. injection H as <- <-.
    repeat apply conj; try reflexivity; try assumption.
    + intros []; reflexivity.
    + cbn. eauto.
    + cbn. intros w2 [= <-]. split; [assumption|congruence].
  - unfold create in H. injection H as <- <-.
    repeat apply conj; try reflexivity; try assumption.
    + intros []; reflexivity.
    + cbn. eauto.
    + cbn. intros w2 [=].
Qed.

Lemma accepted_creation_row_witness :
  exists u,
    tenant7 = Some u /\ user_role u = "tenant"
    /\ table_of row_created = mkDb (<[1 := row_created]> ∅) 1
    /\ reqId row_created = 1
    /\ tenantId row_created = user_id u
    /\ status row_created = in_queue
    /\ lastUpdatedByRole row_created = Some "tenant"
    /\ createdAt row_created = Some 101
    /\ (forall s, stage_at s row_created
                  = if bool_decide (s = in_queue) then Some 100 else None)
    /\ b_unit (sample_body (Some "high")) = Some (unit_ row_created)
    /\ b_category (sample_body (Some "high")) = Some (category row_created)
    /\ b_description (sample_body (Some "high"))
       = Some (description row_created)
    /\ b_phone (sample_body (Some "high")) = Some (phone row_created)
    /\ b_preferredWindow1 (sample_body (Some "high"))
       = preferredWindow1 row_created
    /\ well_formed row_created.
Proof.
  apply (accepted_creation_row tenant7 (sample_body (Some "high")) 100 101
           empty_db row_created (table_of row_created)).
  reflexivity.
Defined.

(** ** Every call, case by case *)

(** What the creation route stores, for the case analysis of the calls. *)
Lemma post_request_stores user body now dbNow (db : Db) :
  (post_request user body now dbNow db).2 = db
  \/ exists r u,
       user = Some u
       /\ (post_request user body now dbNow db).2
          = mkDb (<[serial db + 1 := r]> (rows db)) (serial db + 1)
       /\ reqId r = serial db + 1 /\ well_formed r
       /\ lastUpdatedByRole r = Some "tenant"
       /\ tenantId r = user_id u.
Proof.
  unfold post_request.
  destruct (ensureTenant user) as [u|] eqn:Hu; [|left; reflexivity].
  apply ensureTenant_Some in Hu as [-> _].
  destruct (truthy (b_unit body)) as [unit|] eqn:H1; [|left; reflexivity].
  destruct (truthy (b_category body)) as [cat|] eqn:H2; [|left; reflexivity].
  destruct (truthy (b_description body)) as [descr|] eqn:H3;
    [|left; reflexivity].
  destruct (truthy (b_phone body)) as [ph|] eqn:H4; [|left; reflexivity].
  destruct (truthy (b_preferredWindow1 body)) as [s1|] eqn:H5;
    [|left; reflexivity].
  destruct (negb (includes allowedWindowOptions s1)) eqn:Hw1;
    [left; reflexivity|].
  apply includes_true in Hw1.
  apply truthy_Some in H1 as [_ N1], H2 as [_ N2], H3 as [_ N3],
    H4 as [_ N4].
  assert (truthy (b_accessInstructions body) <> Some "") as Hacc.
  { intros E. apply truthy_Some in E as [_ E]. congruence. }
  destruct (truthy (b_preferredWindow2 body)) as [s2|] eqn:H6.
  - destruct (negb (includes allowedWindowOptions s2)) eqn:Hw2;
      [left; reflexivity|].
    apply includes_true in Hw2.
    destruct (String.eqb_spec s1 s2) as [E|Hne]; [left; reflexivity|].
    right. eexists _, u. repeat apply conj; try reflexivity; try assumption.
    + cbn. eauto.
    + cbn. intros w2 [= <-]. split; [assumption|congruence].
  - right. eexists _, u. repeat apply conj; try reflexivity; try assumption.
    + cbn. eauto.
    + cbn. intros w2 [=].
Qed.

(** A call leaves the table as it is, rewrites one row with the data of
    an update, or stores a fresh row under the next id. *)
Lemma handle_cases c (db : Db) :
  (handle c db).2 = db
  \/ (exists k r d,
        is_create c = false /\ target c = Some k
        /\ rows db !! k = Some r
        /\ (handle c db).2 = mkDb (<[k := apply_update r d]> (rows db)) (serial db)
        /\ row_step c (Some r) (apply_update r d)
        /\ (d_lastUpdatedByRole d = Some "tenant"
            \/ d_lastUpdatedByRole d = Some "manager")
        /\ exists u, caller c = Some u
             /\ (user_role u = "tenant" -> tenantId r = user_id u))
  \/ (exists r u,
        is_create c = true
        /\ (handle c db).2
           = mkDb (<[serial db + 1 := r]> (rows db)) (serial db + 1)
        /\ reqId r = serial db + 1 /\ well_formed r
        /\ lastUpdatedByRole r = Some "tenant"
        /\ caller c = Some u /\ tenantId r = user_id u).
Proof.
  destruct c as [user body now dbNow|user id now|user id st now|user id p];
    cbn [handle].
  - destruct (post_request_stores user body now dbNow db)
      as [H|(r & u & -> & H & Hid & Hwf & Hl & Hown)].
    + left. exact H.
    + right. right. exists r, u. rewrite H.
      repeat apply conj; try reflexivity; try assumption; apply Hwf.
  - unfold patch_close.
    destruct (ensureTenant user) as [u|] eqn:Hu; [|left; reflexivity].
    apply ensureTenant_Some in Hu as [-> Hrole].
    destruct (findUnique db id) as [r|] eqn:Hf; [|left; reflexivity].
    case_bool_decide as Hown; cbn [negb]; [|left; reflexivity].
    case_bool_decide as Hst; [left; reflexivity|].
    rewrite (update_found _ _ _ _ Hf). right. left.
    exists id, r, (close_data r now). repeat apply conj; try reflexivity.
    + exact Hf.
    + constructor. assumption.
    + left. destruct r as [? ? ? ? ? ? ? ? ? st ? ? ca iq vw mr ia cp].
      destruct st, iq, vw, mr, ia, cp; reflexivity.
    + exists u. split; [reflexivity|]. intros _. assumption.
  - unfold patch_status.
    destruct (ensureManager user) as [u|] eqn:Hu; [|left; reflexivity].
    apply ensureManager_Some in Hu as [-> Hrole].
    destruct (mbind decode_status (truthy st)) as [requested|];
      [|left; reflexivity].
    destruct (findUnique db id) as [r|] eqn:Hf; [|left; reflexivity].
    fold (stage_index requested). fold (stage_index (status r)).
    destruct (negb (bool_decide _) && _) eqn:Hord; [left; reflexivity|].
    rewrite (update_found _ _ _ _ Hf). right. left.
    exists id, r, (status_data r requested now).
    repeat apply conj; try reflexivity.
    + exact Hf.
    + constructor.
      apply andb_false_iff in Hord as [H|H]; apply negb_false_iff in H.
      * left. apply bool_decide_eq_true in H. assumption.
      * right. apply Z.eqb_eq in H. assumption.
    + right. destruct r as [? ? ? ? ? ? ? ? ? s0 ? ? ca iq vw mr ia cp].
      destruct requested, iq, vw, mr, ia, cp; reflexivity.
    + exists u. split; [reflexivity|]. intros E.
      destruct Hrole as [H|H]; rewrite H in E; discriminate.
  - unfold patch_priority.
    destruct (ensureManager user) as [u|] eqn:Hu; [|left; reflexivity].
    apply ensureManager_Some in Hu as [-> Hrole].
    destruct (mbind decode_priority (truthy p)) as [v|]; [|left; reflexivity].
    destruct (findUnique db id) as [r|] eqn:Hf.
    + rewrite (update_found _ _ _ _ Hf). right. left.
      exists id, r, (priority_data v). repeat apply conj; try reflexivity.
      * exact Hf.
      * constructor.
      * right. reflexivity.
      * exists u. split; [reflexivity|]. intros E.
        destruct Hrole as [H|H]; rewrite H in E; discriminate.
    + unfold update, findUnique in *. rewrite Hf. left. reflexivity.
Qed.

Lemma apply_update_content r d : same_content r (apply_update r d).
Proof. repeat apply conj; reflexivity. Qed.

Lemma well_formed_content r r' : same_content r r' -> well_formed r -> well_formed r'.
Proof.
  intros (_ & E1 & E2 & E3 & E4 & E5 & E6 & E7 & _) H.
  unfold well_formed. rewrite E1, E2, E3, E4, E5, E6, E7. exact H.
Qed.

(** ** Invariants of the reachable tables *)

(** X8. In every reachable table each row is stored under its own id and
    the ids lie between 1 and the counter of the sequence; hence the id
    that the next creation takes is free, and a creation never
    overwrites a request. *)
Theorem reachable_well_keyed w :
  reachable any_call w ->
  well_keyed (db w) /\ rows (db w) !! (serial (db w) + 1) = None.
Proof.
  intros Hw.
  assert (well_keyed (db w)) as Hk.
  { induction Hw as [clk|w c clk' Hw IH _ _].
    - intros id r H. cbn in H. rewrite lookup_empty in H. discriminate.
    - cbn [db].
      destruct (handle_cases c (db w))
        as [->|[(k & r & d & _ & _ & Hr & -> & _)|(r & u & _ & -> & Hid & _)]].
      + exact IH.
      + intros id r'. cbn [rows serial]. rewrite lookup_insert.
        case_decide as E.
        * subst k. intros [= <-]. apply (IH id r Hr).
        * apply IH.
      + intros id r'. cbn [rows serial]. rewrite lookup_insert.
        case_decide as E.
        * subst id. intros [= <-]. split; [assumption|].
          destruct (rows (db w) !! 1) as [r1|] eqn:H1.
          -- apply IH in H1. lia.
          -- assert (0 <= serial (db w)); [|lia].
             clear -Hw. induction Hw as [clk|w c clk' Hw IH _ _]; [cbn; lia|].
             cbn [db].
             destruct (handle_cases c (db w))
               as [->|[(k & r & d & _ & _ & _ & -> & _)|(r & u & _ & -> & _)]];
               cbn [serial]; lia.
        * intros H. apply IH in H. lia. }
  split; [exact Hk|].
  destruct (rows (db w) !! (serial (db w) + 1)) as [r|] eqn:E; [|reflexivity].
  apply Hk in E. lia.
Qed.

Lemma reachable_well_keyed_witness :
  well_keyed (db world_closed) /\ rows (db world_closed) !! 2 = None.
Proof.
  apply (reachable_well_keyed world_closed reachable_world_closed).
Defined.

(** X9. In every reachable table every row still has what the creation
    checked: a unit, category, description and phone that are not empty,
    a first visit window of the list and, if any, a second one of the
    list that differs from the first; and [lastUpdatedByRole] is tenant
    or manager, never absent and never system. *)
Theorem reachable_well_formed w id r :
  reachable any_call w ->
  rows (db w) !! id = Some r ->
  well_formed r
  /\ (lastUpdatedByRole r = Some "tenant" \/ lastUpdatedByRole r = Some "manager").
Proof.
  intros Hw. revert id r.
  induction Hw as [clk|w c clk' Hw IH _ _]; intros id r'.
  - cbn. rewrite lookup_empty. discriminate.
  - cbn [db].
    destruct (handle_cases c (db w))
      as [->|[(k & r & d & _ & _ & Hr & -> & _ & Hd & _)
             |(r & u & _ & -> & _ & Hwf & Hl & _)]].
    + apply IH.
    + cbn [rows]. rewrite lookup_insert. case_decide as E; [|apply IH].
      intros [= <-]. destruct (IH k r Hr) as [Hwf _]. split.
      * eapply well_formed_content; [apply apply_update_content|exact Hwf].
      * cbn. destruct Hd as [-> | ->]; cbn; auto.
    + cbn [rows]. rewrite lookup_insert. case_decide as E; [|apply IH].
      intros [= <-]. auto.
Qed.

Lemma reachable_well_formed_witness :
  well_formed row_closed
  /\ (lastUpdatedByRole row_closed = Some "tenant"
      \/ lastUpdatedByRole row_closed = Some "manager").
Proof.
  apply (reachable_well_formed world_closed 1 row_closed
           reachable_world_closed).
  reflexivity.
Defined.

(** ** What later calls keep *)

Lemma handle_row_after c (db : Db) id r :
  is_create c = false ->
  rows db !! id = Some r ->
  exists r', rows (handle c db).2 !! id = Some r'
             /\ (r' = r \/ (target c = Some id /\ row_step c (Some r) r')).
Proof.
  intros Hc Hr.
  destruct (handle_cases c db)
    as [->|[(k & r0 & d & _ & Ht & Hr0 & -> & Hrs & _)|(r0 & u & Hc' & _)]].
  - eauto.
  - cbn [rows]. rewrite lookup_insert. case_decide as E; [|eauto].
    subst k. rewrite Hr in Hr0. injection Hr0 as <-. eauto.
  - congruence.
Qed.

(** A relation between a row and what later calls, none of them a
    creation, make of it. *)
Lemma run_related (P : Request -> Request -> Prop) :
  (forall r, P r r) ->
  (forall r1 r2 r3, P r1 r2 -> P r2 r3 -> P r1 r3) ->
  (forall c r r', is_create c = false -> row_step c (Some r) r' -> P r r') ->
  forall calls (db : Db) id r,
    Forall (fun c => is_create c = false) calls ->
    rows db !! id = Some r ->
    exists r', rows (run calls db) !! id = Some r' /\ P r r'.
Proof.
  intros Hrefl Htrans Hstep calls db id r Hcalls. revert db r.
  induction Hcalls as [|c calls Hc _ IH]; intros db r Hr.
  - exists r. split; [assumption|apply Hrefl].
  - destruct (handle_row_after c db id r Hc Hr) as (r1 & Hr1 & Hcase).
    destruct (IH _ r1 Hr1) as (r' & Hr' & HP).
    exists r'. split; [exact Hr'|].
    eapply Htrans; [|exact HP].
    destruct Hcase as [->|[_ Hrs]]; [apply Hrefl|eapply Hstep; eassumption].
Qed.

Lemma row_step_status c r r' :
  is_create c = false -> row_step c (Some r) r' ->
  (is_close c = true /\ status r <> completed /\ status r' = completed)
  \/ (is_close c = false
      /\ (status r' = status r
          \/ stage_index (status r') = stage_index (status r) + 1)).
Proof.
  intros Hc Hrs. inversion Hrs; subst.
  - discriminate Hc.
  - left. repeat apply conj; [reflexivity|assumption|apply close_data_frame].
  - right. split; [reflexivity|].
    destruct (status_data_frame r requested now) as (-> & _).
    match goal with H : _ \/ _ |- _ => destruct H as [->|H]; auto end.
  - right. split; [reflexivity|]. left. reflexivity.
Qed.

(** X10. The status of a request never moves backwards: after any list
    of status calls, closes and priority calls, accepted or rejected,
    its index in the pipeline is at least what it was. *)
Theorem status_never_decreases calls (db : Db) id r :
  Forall (fun c => is_create c = false) calls ->
  rows db !! id = Some r ->
  exists r', rows (run calls db) !! id = Some r'
             /\ stage_index (status r) <= stage_index (status r').
Proof.
  apply (run_related
           (fun r r' => stage_index (status r) <= stage_index (status r'))).
  - intros r0. lia.
  - intros r1 r2 r3. lia.
  - intros c r0 r' Hc Hrs.
    destruct (row_step_status c r0 r' Hc Hrs)
      as [(_ & _ & ->)|(_ & [->|H])]; [|lia|lia].
    pose proof (stage_index_range (status r0)).
    change (stage_index completed) with 4. lia.
Qed.

Lemma status_never_decreases_witness :
  exists r',
    rows (run [PatchStatus manager1 1 (Some "in_queue") 250;
               PatchStatus manager1 1 (Some "maintenance_requested") 260;
               PatchClose tenant7 1 300] (table_of row_viewed)) !! 1 = Some r'
    /\ stage_index viewed <= stage_index (status r').
Proof.
  apply (status_never_decreases _ (table_of row_viewed) 1 row_viewed).
  - repeat constructor.
  - reflexivity.
Defined.

(** X11. A status call, whatever its body, moves the request it names by
    one stage forward or leaves its status as it is, and changes no
    other request. *)
Theorem status_call_one_step user id st now (db : Db) id' r :
  rows db !! id' = Some r ->
  exists r',
    rows (patch_status user id st now db).2 !! id' = Some r'
    /\ (id' <> id -> r' = r)
    /\ (status r' = status r
        \/ stage_index (status r') = stage_index (status r) + 1).
Proof.
  intros Hr.
  destruct (handle_row_after (PatchStatus user id st now) db id' r eq_refl Hr)
    as (r' & Hr' & Hcase).
  exists r'. split; [exact Hr'|].
  destruct Hcase as [->|[Ht Hrs]].
  - auto.
  - split; [intros Hne; injection Ht as ->; contradiction|].
    destruct (row_step_status (PatchStatus user id st now) r r' eq_refl Hrs)
      as [(Hc & _)|(_ & H)]; [discriminate Hc|exact H].
Qed.

Lemma status_call_one_step_witness :
  exists r',
    rows (patch_status manager1 1 (Some "maintenance_requested") 300
            (table_of row_viewed)).2 !! 1 = Some r'
    /\ (1 <> 1 -> r' = row_viewed)
    /\ (status r' = viewed
        \/ stage_index (status r') = stage_index viewed + 1).
Proof.
  apply (status_call_one_step manager1 1 (Some "maintenance_requested") 300
           (table_of row_viewed) 1 row_viewed).
  reflexivity.
Defined.

(** X12. Once a request is completed, with [inQueueAt] and [completedAt]
    recorded, no status call, close or priority call changes its status
    or any of its stage timestamps, set or unset. *)
Theorem completed_is_final calls (db : Db) id r :
  Forall (fun c => is_create c = false) calls ->
  rows db !! id = Some r ->
  status r = completed ->
  is_Some (inQueueAt r) ->
  is_Some (completedAt r) ->
  exists r', rows (run calls db) !! id = Some r'
             /\ status r' = completed /\ same_stamps r r'.
Proof.
  intros Hcalls Hr Hst Hq Hc.
  destruct (run_related
              (fun r r' => status r = completed -> is_Some (inQueueAt r) ->
                           is_Some (completedAt r) ->
                           status r' = completed /\ same_stamps r r'))
    with (calls := calls) (db := db) (id := id) (r := r)
    as (r' & Hr' & HP); try assumption.
  - intros r0 H _ _. split; [assumption|]. intros s. reflexivity.
  - intros r1 r2 r3 H12 H23 H1 Hq1 Hc1.
    destruct (H12 H1 Hq1 Hc1) as [H2 S12].
    destruct H23 as [H3 S23]; try assumption.
    + pose proof (S12 in_queue) as E. cbn [stage_at] in E.
      rewrite E. exact Hq1.
    + pose proof (S12 completed) as E. cbn [stage_at] in E.
      rewrite E. exact Hc1.
    + split; [assumption|]. intros s. rewrite S23. apply S12.
  - intros c r0 r' Hcr Hrs H0 [tq Hq0] [tc Hc0].
    inversion Hrs; subst.
    + discriminate Hcr.
    + contradiction.
    + assert (requested = completed) as ->.
      { match goal with H : _ \/ _ |- _ => destruct H as [->|Hn] end;
          [assumption|].
        rewrite H0 in Hn. pose proof (stage_index_range requested).
        change (stage_index completed) with 4 in Hn. lia. }
      split; [apply status_data_frame|].
      intros s. rewrite status_data_stage.
      case_bool_decide as E; [subst s; cbn [stage_at]; rewrite Hc0; reflexivity|].
      case_bool_decide as E0; [subst s; cbn [stage_at]; rewrite Hq0; reflexivity|].
      reflexivity.
    + destruct (priority_step_same r0 v) as [Hs Hst']. split.
      * rewrite Hs. assumption.
      * exact Hst'.
  - exists r'. split; [exact Hr'|]. apply HP; assumption.
Qed.

Lemma completed_is_final_witness :
  exists r',
    rows (run [PatchStatus manager1 1 (Some "completed") 400;
               PatchStatus manager1 1 (Some "viewed") 410;
               PatchPriority manager1 1 (Some "low");
               PatchClose tenant7 1 420] (table_of row_closed)) !! 1 = Some r'
    /\ status r' = completed /\ same_stamps row_closed r'.
Proof.
  apply (completed_is_final _ (table_of row_closed) 1 row_closed).
  - repeat constructor.
  - reflexivity.
  - reflexivity.
  - exists 100. reflexivity.
  - exists 300. reflexivity.
Defined.

Lemma row_step_content c r r' :
  is_create c = false -> row_step c (Some r) r' -> same_content r r'.
Proof.
  intros Hc Hrs. inversion Hrs; subst;
    [discriminate Hc|apply apply_update_content..].
Qed.

(** X13. No status call, close or priority call changes the id of a
    request, its owner, its creation instant, or its unit, category,
    description, phone, visit windows and access instructions. *)
Theorem content_is_kept calls (db : Db) id r :
  Forall (fun c => is_create c = false) calls ->
  rows db !! id = Some r ->
  exists r', rows (run calls db) !! id = Some r' /\ same_content r r'.
Proof.
  apply (run_related same_content).
  - intros r0. repeat apply conj; reflexivity.
  - intros r1 r2 r3 H12 H23. unfold same_content in *.
    destruct H12 as (A1 & A2 & A3 & A4 & A5 & A6 & A7 & A8 & A9 & A10).
    destruct H23 as (B1 & B2 & B3 & B4 & B5 & B6 & B7 & B8 & B9 & B10).
    repeat apply conj; congruence.
  - apply row_step_content.
Qed.

Lemma content_is_kept_witness :
  exists r',
    rows (run [PatchStatus manager1 1 (Some "viewed") 200;
               PatchPriority manager1 1 (Some "low");
               PatchClose tenant7 1 300] (table_of row_new)) !! 1 = Some r'
    /\ same_content row_new r'.
Proof.
  apply (content_is_kept _ (table_of row_new) 1 row_new).
  - repeat constructor.
  - reflexivity.
Defined.

(** X14. In a table where every row sits under its own id below the
    counter, a call changes no request but the one it names, and a
    creation changes none. *)
Theorem call_touches_one_row c (db : Db) id r :
  well_keyed db ->
  rows db !! id = Some r ->
  target c <> Some id ->
  rows (handle c db).2 !! id = Some r.
Proof.
  intros Hk Hr Ht.
  destruct (handle_cases c db)
    as [->|[(k & r0 & d & _ & Hk' & _ & -> & _)|(r0 & u & _ & -> & _)]].
  - exact Hr.
  - cbn [rows]. rewrite lookup_insert_ne; [exact Hr|]. congruence.
  - cbn [rows]. rewrite lookup_insert_ne; [exact Hr|].
    apply Hk in Hr. lia.
Qed.

Lemma well_keyed_table_of r : reqId r = 1 -> well_keyed (table_of r).
Proof.
  intros Hid id r'. unfold table_of. cbn [rows serial].
  rewrite lookup_singleton. case_decide as E; [|discriminate].
  subst id. intros [= <-]. split; [assumption|lia].
Qed.

Lemma call_touches_one_row_witness :
  rows (handle (PostRequest tenant8 (sample_body None) 500 501)
               (table_of row_viewed)).2 !! 1 = Some row_viewed.
Proof.
  apply (call_touches_one_row _ (table_of row_viewed) 1 row_viewed).
  - apply well_keyed_table_of. reflexivity.
  - reflexivity.
  - discriminate.
Defined.

(** X15. A tenant cannot change the request of another tenant: whatever
    call a caller whose role is tenant makes, a row that belongs to
    someone else is left exactly as it was. *)
Theorem tenant_cannot_touch_others c u (db : Db) id r :
  well_keyed db ->
  caller c = Some u ->
  user_role u = "tenant" ->
  rows db !! id = Some r ->
  tenantId r <> user_id u ->
  rows (handle c db).2 !! id = Some r.
Proof.
  intros Hk Hcaller Hrole Hr Hown.
  destruct (handle_cases c db)
    as [->|[(k & r0 & d & _ & _ & Hr0 & -> & _ & _ & u' & Hu' & Hmine)
           |(r0 & u' & _ & -> & _)]].
  - exact Hr.
  - cbn [rows]. rewrite lookup_insert. case_decide as E; [|exact Hr].
    subst k. exfalso. rewrite Hr in Hr0. injection Hr0 as <-.
    rewrite Hcaller in Hu'. injection Hu' as <-. auto.
  - cbn [rows]. rewrite lookup_insert_ne; [exact Hr|].
    apply Hk in Hr. lia.
Qed.

Lemma tenant_cannot_touch_others_witness :
  rows (handle (PatchClose tenant8 1 500) (table_of row_viewed)).2 !! 1
  = Some row_viewed.
Proof.
  apply (tenant_cannot_touch_others _ (mkUser 8 "tenant") (table_of row_viewed)
           1 row_viewed).
  - apply well_keyed_table_of. reflexivity.
  - reflexivity.
  - reflexivity.
  - reflexivity.
  - discriminate.
Defined.

(** ** The two revisions of the routes *)

Lemma rev1_status_data r requested now :
  is_Some (inQueueAt r) ->
  Rev1.status_data r requested now = status_data r requested now.
Proof.
  intros [t Ht]. unfold Rev1.status_data, status_data. rewrite Ht.
  reflexivity.
Qed.

Lemma rev1_close_data r now :
  status r <> completed ->
  (forall s, s <> completed -> stage_index s <= stage_index (status r) ->
             is_Some (stage_at s r)) ->
  Rev1.close_data r now = close_data r now.
Proof.
  intros Hst H.
  destruct r as [? ? ? ? ? ? ? ? ? st ? ? ca iq vw mr ia cp].
  cbn [status stage_at] in *.
  destruct st; try contradiction;
    destruct iq, vw, mr, ia, cp; try reflexivity; exfalso;
    first
      [ destruct (H in_queue) as [? [=]];
        [discriminate|vm_compute; discriminate]
      | destruct (H viewed) as [? [=]];
        [discriminate|vm_compute; discriminate]
      | destruct (H maintenance_requested) as [? [=]];
        [discriminate|vm_compute; discriminate]
      | destruct (H implementing_actions) as [? [=]];
        [discriminate|vm_compute; discriminate] ].
Qed.

(** X16. On a request whose [inQueueAt] is set, the status route of the
    first revision and that of the later one give the same answer and
    the same table: the later revision only adds the back-fill of
    [inQueueAt]. *)
Theorem status_revisions_agree user id st now (db : Db) :
  (forall r, findUnique db id = Some r -> is_Some (inQueueAt r)) ->
  Rev1.patch_status user id st now db = patch_status user id st now db.
Proof.
  intros H. unfold Rev1.patch_status, patch_status.
  destruct (ensureManager user); [|reflexivity].
  destruct (mbind decode_status (truthy st)) as [requested|]; [|reflexivity].
  destruct (findUnique db id) as [r|]; [|reflexivity].
  rewrite (rev1_status_data r requested now (H r eq_refl)). reflexivity.
Qed.

Lemma status_revisions_agree_witness :
  Rev1.patch_status manager1 1 (Some "maintenance_requested") 300
    (table_of row_viewed)
  = patch_status manager1 1 (Some "maintenance_requested") 300
      (table_of row_viewed).
Proof.
  apply (status_revisions_agree manager1 1 (Some "maintenance_requested") 300
           (table_of row_viewed)).
  intros r [= <-]. exists 100. reflexivity.
Defined.

(** X17. On a request that is completed, or whose timestamps are set for
    every stage up to its status, the close route of the first revision
    and that of the later one give the same answer and the same table:
    neither writes a timestamp other than [completedAt]. *)
Theorem close_revisions_agree user id now (db : Db) :
  (forall r, findUnique db id = Some r -> status r <> completed ->
     forall s, s <> completed -> stage_index s <= stage_index (status r) ->
               is_Some (stage_at s r)) ->
  Rev1.patch_close user id now db = patch_close user id now db.
Proof.
  intros H. unfold Rev1.patch_close, patch_close.
  destruct (ensureTenant user); [|reflexivity].
  destruct (findUnique db id) as [r|]; [|reflexivity].
  destruct (negb _); [reflexivity|].
  case_bool_decide as Hst; [reflexivity|].
  rewrite (rev1_close_data r now Hst (H r eq_refl Hst)). reflexivity.
Qed.

Lemma close_revisions_agree_witness :
  Rev1.patch_close tenant7 1 300 (table_of row_viewed)
  = patch_close tenant7 1 300 (table_of row_viewed).
Proof.
  apply (close_revisions_agree tenant7 1 300 (table_of row_viewed)).
  intros r [= <-] _ s Hne Hle.
  destruct s; try (exists 100; reflexivity); try (exists 200; reflexivity);
    exfalso; revert Hle; vm_compute; auto.
Defined.

(** X18. On every reachable table the status route and the close route
    of the two revisions agree, for every caller, id, body and instant:
    the back-fills of the later revision only act on rows that were not
    created through the creation route. *)
Theorem revisions_agree_on_reachable w user id st now :
  reachable any_call w ->
  Rev1.patch_status user id st now (db w) = patch_status user id st now (db w)
  /\ Rev1.patch_close user id now (db w) = patch_close user id now (db w).
Proof.
  intros Hw. split.
  - unfold Rev1.patch_status, patch_status.
    destruct (ensureManager user); [|reflexivity].
    destruct (mbind decode_status (truthy st)) as [requested|]; [|reflexivity].
    destruct (findUnique (db w) id) as [r|] eqn:Hr; [|reflexivity].
    rewrite rev1_status_data; [reflexivity|].
    destruct (reachable_tracked w Hw id r Hr) as (h & Hset & _).
    apply (Hset in_queue). pose proof (stage_index_range h).
    change (stage_index in_queue) with 0. lia.
  - unfold Rev1.patch_close, patch_close.
    destruct (ensureTenant user); [|reflexivity].
    destruct (findUnique (db w) id) as [r|] eqn:Hr; [|reflexivity].
    destruct (negb _); [reflexivity|].
    case_bool_decide as Hst; [reflexivity|].
    rewrite rev1_close_data; [reflexivity|assumption|].
    intros s _ Hle.
    destruct (reachable_tracked w Hw id r Hr)
      as (h & Hset & _ & [[Hs _]|[Hs _]] & _); [|contradiction].
    subst h. apply Hset, Hle.
Qed.

Lemma revisions_agree_on_reachable_witness :
  Rev1.patch_status manager1 1 (Some "viewed") 200 (db world_created)
  = patch_status manager1 1 (Some "viewed") 200 (db world_created)
  /\ Rev1.patch_close tenant7 1 200 (db world_created)
     = patch_close tenant7 1 200 (db world_created).
Proof.
  assert (reachable any_call world_created) as Hw.
  { unfold world_created, after.
    eapply reach_step; [apply reach_init|reflexivity|reflexivity]. }
  split.
  - apply (revisions_agree_on_reachable world_created manager1 1
             (Some "viewed") 200 Hw).
  - apply (revisions_agree_on_reachable world_created tenant7 1 None 200 Hw).
Defined.

(** ** The list of a tenant *)

Lemma newest_first_total : Total newest_first.
Proof.
  intros r1 r2. unfold newest_first.
  destruct (createdAt r1), (createdAt r2); auto. lia.
Qed.

Lemma newest_first_transitive : Transitive newest_first.
Proof.
  intros r1 r2 r3. unfold newest_first.
  destruct (createdAt r1), (createdAt r2), (createdAt r3); auto;
    try contradiction. lia.
Qed.

(** X19. The list that a tenant gets holds exactly the rows of the table
    that belong to the caller, and each row of the list was created no
    earlier than all the rows after it. *)
Theorem get_mine_own_newest_first user u (db : Db) :
  ensureTenant user = Some u ->
  exists l,
    get_mine user db = list_json 200 l
    /\ (forall r, r ∈ l <->
          tenantId r = user_id u /\ exists id, rows db !! id = Some r)
    /\ StronglySorted newest_first l.
Proof.
  intros Hu. unfold get_mine. rewrite Hu. eexists. split; [reflexivity|].
  split.
  - intros r. unfold findMany_mine.
    rewrite merge_sort_Permutation, list_elem_of_filter, list_elem_of_fmap.
    split.
    + intros [Hown ([id r'] & -> & Hin)].
      apply elem_of_map_to_list in Hin. eauto.
    + intros [Hown (id & Hr)]. split; [assumption|].
      exists (id, r). split; [reflexivity|].
      apply elem_of_map_to_list. assumption.
  - apply (@StronglySorted_merge_sort _ newest_first _
             newest_first_transitive newest_first_total).
Qed.

Lemma get_mine_own_newest_first_witness :
  exists l,
    get_mine tenant7 (db world_closed) = list_json 200 l
    /\ (forall r, r ∈ l <->
          tenantId r = 7 /\ exists id, rows (db world_closed) !! id = Some r)
    /\ StronglySorted newest_first l.
Proof.
  apply (get_mine_own_newest_first tenant7 (mkUser 7 "tenant") (db world_closed)).
  reflexivity.
Defined.

(** ** The pages of the frontend *)

Lemma includes_singleton (x y : string) :
  includes [y] x = bool_decide (x = y).
Proof.
  unfold includes. apply bool_decide_ext, list_elem_of_singleton.
Qed.

(** X20. Once the session is loaded, the role decides the page, not the
    route and not the email typed at the login: from every route but the
    login page, and so from the route the login page navigates to, a
    manager ends on the manager dashboard and a tenant on the tenant
    dashboard after at most two redirections; without a user every
    route ends on the login page. *)
Theorem pages_by_role u fuel route :
  (2 <= fuel)%nat ->
  route <> Frontend.at_login ->
  (user_role u = "manager" ->
   Frontend.settle fuel (Frontend.mkAuth (Some u) false) route
   = Some Frontend.ManagerDashboard
   /\ forall email,
        Frontend.settle fuel (Frontend.mkAuth (Some u) false)
          (Frontend.after_login email)
        = Some Frontend.ManagerDashboard)
  /\ (user_role u = "tenant" ->
      Frontend.settle fuel (Frontend.mkAuth (Some u) false) route
      = Some Frontend.TenantDashboard
      /\ forall email,
           Frontend.settle fuel (Frontend.mkAuth (Some u) false)
             (Frontend.after_login email)
           = Some Frontend.TenantDashboard)
  /\ Frontend.settle fuel (Frontend.mkAuth None false) route
     = Some Frontend.LoginPage.
Proof.
  intros Hfuel Hroute.
  destruct fuel as [|[|fuel]]; [lia|lia|].
  destruct u as [uid role]. cbn [user_role].
  repeat apply conj.
  - intros ->. split.
    + destruct route; try contradiction; destruct fuel; vm_compute; reflexivity.
    + intros email. unfold Frontend.after_login.
      destruct (String.eqb email _); destruct fuel; vm_compute; reflexivity.
  - intros ->. split.
    + destruct route; try contradiction; destruct fuel; vm_compute; reflexivity.
    + intros email. unfold Frontend.after_login.
      destruct (String.eqb email _); destruct fuel; vm_compute; reflexivity.
  - destruct route; try contradiction; destruct fuel; reflexivity.
Qed.

Lemma pages_by_role_witness :
  Frontend.settle 2 (Frontend.mkAuth manager1 false)
    (Frontend.after_login "boss@example.com")
  = Some Frontend.ManagerDashboard.
Proof.
  destruct (pages_by_role (mkUser 1 "manager") 2 Frontend.at_tenant)
    as ((_ & H) & _); [lia|discriminate|reflexivity|].
  apply (H "boss@example.com").
Defined.

(** X21. A user whose role is neither manager nor tenant, an admin for
    one, is never shown a dashboard: from every route but the login
    page the redirections go on, however many are followed. *)
Theorem admin_never_lands u fuel route :
  user_role u <> "manager" ->
  user_role u <> "tenant" ->
  route <> Frontend.at_login ->
  Frontend.settle fuel (Frontend.mkAuth (Some u) false) route = None.
Proof.
  intros Hm Ht. revert route.
  assert (forall route, route <> Frontend.at_login ->
            exists to, to <> Frontend.at_login
              /\ Frontend.App (Frontend.mkAuth (Some u) false) route
                 = Frontend.Navigate to) as Hnav.
  { intros route Hroute. destruct route; try contradiction;
      cbn; unfold Frontend.ProtectedRoute; cbn;
      rewrite ?includes_singleton, ?bool_decide_eq_false_2 by assumption;
      cbn.
    - exists Frontend.at_root. split; [discriminate|reflexivity].
    - exists Frontend.at_root. split; [discriminate|reflexivity].
    - destruct (String.eqb_spec (user_role u) "manager"); [contradiction|].
      exists Frontend.at_tenant. split; [discriminate|reflexivity].
    - exists Frontend.at_root. split; [discriminate|reflexivity]. }
  induction fuel as [|fuel IH]; intros route Hroute;
    destruct (Hnav route Hroute) as (to & Hto & E); cbn; rewrite E.
  - reflexivity.
  - apply IH, Hto.
Qed.

Lemma admin_never_lands_witness :
  Frontend.settle 1000 (Frontend.mkAuth (Some (mkUser 3 "admin")) false)
    Frontend.at_manager = None.
Proof.
  apply (admin_never_lands (mkUser 3 "admin") 1000 Frontend.at_manager);
    discriminate.
Defined.

(** ** The login *)

(** X22. With an email and a password in the body, the login succeeds
    exactly when a user has this email and the password checks against
    the stored hash; the answer then carries the token signed for the id
    and the role of that user. Every other attempt gets the same 401,
    whether the email is unknown or the password is wrong. *)
Theorem login_outcome (compare : string -> string -> bool)
    (signToken : Z -> string -> string) e p users :
  e <> "" -> p <> "" ->
  (forall token su,
     Auth.login compare signToken (Some e) (Some p) users
     = Auth.login_json token su
     <-> exists u,
           Auth.findUnique_email users e = Some u
           /\ Auth.email u = e
           /\ compare p (Auth.passwordHash u) = true
           /\ token = signToken (Auth.id u) (Auth.role u)
           /\ su = Auth.safeUser u)
  /\ ((exists token su,
         Auth.login compare signToken (Some e) (Some p) users
         = Auth.login_json token su)
      \/ Auth.login compare signToken (Some e) (Some p) users
         = Auth.login_message 401 "Invalid credentials").
Proof.
  intros He Hp. unfold Auth.login, truthy.
  destruct (String.eqb_spec e "") as [|_]; [contradiction|].
  destruct (String.eqb_spec p "") as [|_]; [contradiction|].
  destruct (Auth.findUnique_email users e) as [u|] eqn:Hf.
  - assert (Auth.email u = e) as Hmail.
    { unfold Auth.findUnique_email in Hf. apply find_some in Hf as [_ Hf].
      apply String.eqb_eq in Hf. exact Hf. }
    destruct (compare p (Auth.passwordHash u)) eqn:Hc; cbn [negb].
    + split; [|left; eauto].
      intros token su. split.
      * intros [= <- <-]. exists u. auto.
      * intros (u' & [= <-] & _ & _ & -> & ->). reflexivity.
    + split; [|right; reflexivity].
      intros token su. split; [discriminate|].
      intros (u' & [= <-] & _ & Hc' & _). congruence.
  - split; [|right; reflexivity].
    intros token su. split; [discriminate|].
    intros (u' & [=] & _).
Qed.

Lemma login_outcome_witness :
  Auth.login (fun p h => String.eqb h (String.append "hash:" p))
    (fun id role => role) (Some "tenant@example.com") (Some "guess")
    [Auth.mkUserRow 2 "Tenant One" "tenant@example.com" "hash:password123"
       "tenant" 0 0]
  = Auth.login_message 401 "Invalid credentials".
Proof.
  destruct (login_outcome (fun p h => String.eqb h (String.append "hash:" p))
              (fun id role => role) "tenant@example.com" "guess"
              [Auth.mkUserRow 2 "Tenant One" "tenant@example.com"
                 "hash:password123" "tenant" 0 0])
    as [Hiff [(token & su & H)|H]]; [discriminate|discriminate| |exact H].
  apply Hiff in H as (u & [= <-] & _ & Hc & _). discriminate Hc.
Defined.

(** ** More on the reachable tables and on the pipeline *)

(** X23. In every reachable table a request has [completedAt] exactly
    when its status is completed, its [inQueueAt] is set, and none of
    its stage timestamps is later than the clock. *)
Theorem reachable_completedAt w id r :
  reachable any_call w ->
  rows (db w) !! id = Some r ->
  (status r = completed <-> is_Some (completedAt r))
  /\ is_Some (inQueueAt r)
  /\ not_after (clock w) r.
Proof.
  intros Hw Hr.
  destruct (reachable_tracked w Hw id r Hr)
    as (h & Hset & _ & Hshape & _ & Hna).
  repeat apply conj; [| |apply (Hset in_queue)|exact Hna].
  - intros Hst. destruct Hshape as [[Hs _]|[_ Hc]]; [|exact Hc].
    apply (Hset completed). rewrite <- Hs, Hst. lia.
  - intros [t Ht]. destruct Hshape as [[Hs Hc]|[Hs _]]; [|exact Hs].
    destruct (decide (h = completed)) as [E|E]; [congruence|].
    rewrite (Hc E) in Ht. discriminate.
  - pose proof (stage_index_range h).
    change (stage_index in_queue) with 0. lia.
Qed.

Lemma reachable_completedAt_witness :
  (status row_closed = completed <-> is_Some (completedAt row_closed))
  /\ is_Some (inQueueAt row_closed)
  /\ not_after 300 row_closed.
Proof.
  apply (reachable_completedAt world_closed 1 row_closed
           reachable_world_closed).
  reflexivity.
Defined.

(** X24. The four status calls of a manager, in the order of the
    pipeline, take a request in the queue to completed, whatever the
    instants: each stage keeps the timestamp it had or gets the instant
    of its call, and [inQueueAt] is back-filled at the first call if it
    was unset. *)
Theorem full_pipeline user u id t1 t2 t3 t4 (db : Db) r :
  ensureManager user = Some u ->
  findUnique db id = Some r ->
  status r = in_queue ->
  exists r',
    rows (run [PatchStatus user id (Some "viewed") t1;
               PatchStatus user id (Some "maintenance_requested") t2;
               PatchStatus user id (Some "implementing_actions") t3;
               PatchStatus user id (Some "completed") t4] db) !! id = Some r'
    /\ status r' = completed
    /\ inQueueAt r' = Some (inQueueAt r ?? createdAt r ?? t1)
    /\ viewedAt r' = Some (viewedAt r ?? t1)
    /\ maintenanceRequestedAt r' = Some (maintenanceRequestedAt r ?? t2)
    /\ implementingActionsAt r' = Some (implementingActionsAt r ?? t3)
    /\ completedAt r' = Some (completedAt r ?? t4)
    /\ priority r' = priority r.
Proof.
  intros Hu Hf Hst.
  assert (forall requested now (d : Db) x,
            findUnique d id = Some x ->
            stage_index requested = stage_index (status x) + 1 ->
            (patch_status user id (Some (status_str requested)) now d).2
            = mkDb (<[id := apply_update x (status_data x requested now)]>
                      (rows d)) (serial d)) as Hnext.
  { intros requested now d x Hx Hidx.
    rewrite (patch_status_found user u id requested now d x Hu Hx).
    rewrite (proj2 (Z.eqb_eq _ _) Hidx), andb_false_r. reflexivity. }
  unfold run. cbn [foldl handle].
  change "viewed" with (status_str viewed).
  change "maintenance_requested" with (status_str maintenance_requested).
  change "implementing_actions" with (status_str implementing_actions).
  change "completed" with (status_str completed).
  rewrite (Hnext viewed t1 db r Hf) by (rewrite Hst; reflexivity).
  assert (forall (d : Db) x, findUnique (mkDb (<[id := x]> (rows d)) (serial d)) id
                             = Some x) as Hnew
    by (intros d x; apply lookup_insert_eq).
  rewrite (Hnext maintenance_requested t2 _ _ (Hnew _ _))
    by (rewrite (proj1 (status_data_frame _ _ _)); reflexivity).
  rewrite (Hnext implementing_actions t3 _ _ (Hnew _ _))
    by (rewrite (proj1 (status_data_frame _ _ _)); reflexivity).
  rewrite (Hnext completed t4 _ _ (Hnew _ _))
    by (rewrite (proj1 (status_data_frame _ _ _)); reflexivity).
  cbn [rows].
  eexists. split; [apply lookup_insert_eq|].
  destruct r as [? ? ? ? ? ? ? ? ? st ? ? ca iq vw mr ia cp].
  cbn [status] in Hst. subst st.
  destruct iq, vw, mr, ia, cp; repeat apply conj; reflexivity.
Qed.

Lemma full_pipeline_witness :
  exists r',
    rows (run [PatchStatus manager1 1 (Some "viewed") 200;
               PatchStatus manager1 1 (Some "maintenance_requested") 300;
               PatchStatus manager1 1 (Some "implementing_actions") 400;
               PatchStatus manager1 1 (Some "completed") 500]
              (table_of row_new)) !! 1 = Some r'
    /\ status r' = completed
    /\ inQueueAt r' = Some 100
    /\ viewedAt r' = Some 200
    /\ maintenanceRequestedAt r' = Some 300
    /\ implementingActionsAt r' = Some 400
    /\ completedAt r' = Some 500
    /\ priority r' = normal.
Proof.
  apply (full_pipeline manager1 (mkUser 1 "manager") 1 200 300 400 500
           (table_of row_new) row_new); reflexivity.
Defined.


